(** * Cross-chain bridge listener: a shallow embedding of [script.py]

    The development follows the layout of the Python module: the
    [DepositEvent] record, the [Config] tables, [BlockchainConnector]
    (the mock listener), [EventProcessor] (validation, enrichment, the
    signature request and the monitoring report) and
    [CrossChainBridgeListener] (connector set-up, the per-chain task and
    [run]).

    Conventions.
    - Python [int] is [Z]; Python [float] is the kernel's binary64 [float].
    - A call that can raise returns a [result]; a method that logs, calls
      other methods or talks HTTP runs in the monad [M], which pairs the
      effects performed so far with the [result].
    - What the outside world answers (an HTTP exchange, a random draw, a
      sleep being cancelled) is an explicit argument.
    - The [Web3] helpers the module imports are an interface ([Web3Lib]);
      its contract is stated as a hypothesis where a proof needs it. *)

From Stdlib Require Import ZArith Lia List String Ascii Bool Sorted DecimalString.
From Stdlib Require Import DecimalPos DecimalZ.
From Stdlib Require Import Floats.PrimFloat Floats.SpecFloat Floats.FloatOps.
From stdpp Require Import base gmap.

Open Scope Z_scope.

(** ** Exceptions and results *)

(** The exception classes that matter to the handlers of the module.
    [CancelledError] derives from [BaseException] only, so that
    [except Exception] lets it through; every other class here derives
    from [Exception]; [aiohttp.ClientError] is the only one caught by
    [except aiohttp.ClientError] ([asyncio.TimeoutError] is not one of its
    subclasses). *)
Inductive exn : Type :=
| ClientError
| TimeoutError
| OverflowError
| ValueError
| KeyError
| CancelledError.

Definition isinstance_Exception (e : exn) : bool :=
  match e with
  | CancelledError => false
  | _ => true
  end.

Definition isinstance_ClientError (e : exn) : bool :=
  match e with
  | ClientError => true
  | _ => false
  end.

Inductive result (A : Type) : Type :=
| Ok (a : A)
| Raise (e : exn).
Arguments Ok {A} a.
Arguments Raise {A} e.

(** ** Data model *)

Record DepositEvent : Type := mkDepositEvent {
  transaction_hash : string;
  source_chain_id : Z;
  destination_chain_id : Z;
  depositor : string;
  recipient : string;
  token_address : string;
  amount : Z;
  nonce : Z
}.

(** A number as the report carries it: the [int] sentinel or a [float]. *)
Inductive pynum : Type :=
| PyInt (z : Z)
| PyFloat (f : float).

(** The JSON body posted to the monitoring service. *)
Record payload : Type := mkPayload {
  tx_hash : string;
  source_chain : Z;
  dest_chain : Z;
  payload_amount : Z;
  value_usd : pynum;
  status : string
}.

(** ** Effects *)

Inductive level : Type := DEBUG | INFO | WARNING | ERROR.

(** One constructor per [logger] call of the module, with those of the
    interpolated values that the properties below refer to. *)
Inductive logmsg : Type :=
| MsgConnectorInit (chain : Z) (url : string)
| MsgListening (chain : Z)
| MsgNewEvent (chain : Z) (tx : string)
| MsgNoNewEvents (chain : Z)
| MsgPollError (chain : Z) (e : exn)
| MsgSessionStarted
| MsgSessionClosed
| MsgProcessing (n src dst : Z)
| MsgInvalidEvent (ev : DepositEvent)
| MsgEnriched (v : float)
| MsgProcessed (n : Z)
| MsgNoSessionForPrice
| MsgFetchedPrice
| MsgPriceClientError (e : exn)
| MsgPriceUnexpected (e : exn)
| MsgRequestingSignatures (message_hash : string)
| MsgNoSessionForReport
| MsgReported (n : Z)
| MsgReportFailed (code : Z)
| MsgReportError (e : exn)
| MsgConfigMissing (chain : Z)
| MsgNoValidChains
| MsgStarting
| MsgCancelled
| MsgShuttingDown
| MsgShutdownComplete.

(** The two downstream steps of [process_event], recorded when called. *)
Inductive call : Type :=
| RequestSignatures (ev : DepositEvent)
| ReportToMonitoring (ev : DepositEvent) (v : pynum).

Inductive effect : Type :=
| Log (l : level) (m : logmsg)
| Call (c : call)
| HttpGet (url : string)
| HttpPost (url : string) (body : payload).

Definition trace : Type := list effect.

(** ** The effect-and-exception monad *)

Definition M (A : Type) : Type := (trace * result A)%type.

Definition ret {A} (a : A) : M A := ([], Ok a).
Definition raise {A} (e : exn) : M A := ([], Raise e).
Definition emit (x : effect) : M unit := ([x], Ok tt).
Definition lift {A} (r : result A) : M A := ([], r).

Definition bind {A B} (m : M A) (k : A -> M B) : M B :=
  match m with
  | (t, Ok a) => let (t', r) := k a in (t ++ t', r)
  | (t, Raise e) => (t, Raise e)
  end.

(** [try: m except ...: h]: [h e] is [Some k] when a handler matches [e]. *)
Definition try_except {A} (m : M A) (h : exn -> option (M A)) : M A :=
  match m with
  | (t, Raise e) =>
      match h e with
      | Some k => let (t', r) := k in (t ++ t', r)
      | None => (t, Raise e)
      end
  | ok => ok
  end.

(** [try: m finally: f]. *)
Definition try_finally {A} (m : M A) (f : M unit) : M A :=
  match m with
  | (t, r) =>
      match f with
      | (t', Ok _) => (t ++ t', r)
      | (t', Raise e) => (t ++ t', Raise e)
      end
  end.

Declare Scope py_scope.
Delimit Scope py_scope with py.
Notation "x <- m ;; k" := (bind m (fun x => k))
  (at level 100, m at next level, right associativity) : py_scope.
Notation "m ;; k" := (bind m (fun _ => k))
  (at level 100, right associativity) : py_scope.
Open Scope py_scope.

Definition log (l : level) (m : logmsg) : M unit := emit (Log l m).

Definition effects {A} (m : M A) : trace := fst m.
Definition outcome {A} (m : M A) : result A := snd m.

(** ** Python numbers *)

(** [str(n)] for an [int]: decimal digits, with a leading minus sign (the
    interpreter's optional limit on the number of digits is left out). *)
Definition str_of_int (z : Z) : string := NilZero.string_of_int (Z.to_int z).

Definition spec_of_int (z : Z) : spec_float :=
  match z with
  | Z0 => S754_zero false
  | Zpos p => S754_finite false p 0
  | Zneg p => S754_finite true p 0
  end.

(** [a / b] on two [int]s: the correctly rounded quotient, [OverflowError]
    when it does not fit a [float]. (The divisor of the module is the
    constant [10**6], so [ZeroDivisionError] has no case here.) *)
Definition int_truediv (a b : Z) : result float :=
  let q := SF2Prim (SFdiv prec emax (spec_of_int a) (spec_of_int b)) in
  if PrimFloat.is_infinity q then Raise OverflowError else Ok q.

(** Truth value of a [float]: anything but zero (a NaN is true). *)
Definition float_truthy (f : float) : bool := negb (PrimFloat.eqb f 0%float).

(** ** Config *)

Module Config.
Definition RPC_ENDPOINTS : gmap Z string :=
  {[ 1 := "https://mainnet.infura.io/v3/YOUR_INFURA_KEY"%string;
     137 := "https://polygon-rpc.com/"%string ]}.

Definition BRIDGE_CONTRACT_ADDRESSES : gmap Z string :=
  {[ 1 := "0xSourceBridgeContractAddress..."%string;
     137 := "0xDestBridgeContractAddress..."%string ]}.

Definition MONITORING_API_ENDPOINT : string :=
  "https://api.monitoring-service.com/v1/bridge-events".

Definition TOKEN_PRICE_API : string :=
  "https://api.coingecko.com/api/v3/simple/price?ids=ethereum&vs_currencies=usd".

Definition LISTENER_POLL_INTERVAL_SECONDS : Z := 5.
End Config.

(** ** The Web3 helpers *)

(** What the module uses of [web3.Web3]:
    [keccak_hex s] is [Web3.keccak(text=s).hex()]. *)
Class Web3Lib : Type := {
  to_hex : Z -> string;
  to_checksum_address : string -> result string;
  is_address : string -> bool;
  keccak_hex : string -> string
}.

(** ** What the outside world answers *)

(** [self.session]: never created, open, or closed. *)
Inductive session_state : Type := NoSession | SessionOpen | SessionClosed.

(** The guard [not self.session or self.session.closed], negated. *)
Definition session_available (s : session_state) : bool :=
  match s with
  | SessionOpen => true
  | _ => false
  end.

(** The value found under [data['ethereum']['usd']], as the code observes
    it: its truth value ([if price:]) and what [float(price)] makes of it.
    The JSON number [0] is [{| py_bool := false; py_float := Ok 0 |}], the
    JSON string ["0"] is [{| py_bool := true; py_float := Ok 0 |}], a JSON
    list with an element is [{| py_bool := true; py_float := Raise _ |}]. *)
Record pyobj : Type := mkPyobj {
  py_bool : bool;
  py_float : result float
}.

(** The price request: an exception raised before [price] is bound (by
    [session.get], [raise_for_status], [response.json] or the two [get]s),
    or the value bound to [price] ([None] when the key is missing). *)
Inductive get_outcome : Type :=
| GetRaises (e : exn)
| GetJson (price : option pyobj).

(** The report request: an exception raised by [session.post], or the
    status code of the response. *)
Inductive post_outcome : Type :=
| PostRaises (e : exn)
| PostStatus (code : Z).

(** Everything the outside world contributes to one [process_event]. *)
Record world : Type := mkWorld {
  session_at_fetch : session_state;
  price_exchange : get_outcome;
  session_at_report : session_state;
  report_exchange : post_outcome
}.

(** The random draws of one [_generate_mock_event]: [random.randint(1,
    10**18)], the two [random.choices(..., k=40)] and
    [random.randint(100, 10000)]. *)
Record mock_draws : Type := mkDraws {
  tx_rand : Z;
  depositor_chars : list ascii;
  recipient_chars : list ascii;
  amount_rand : Z
}.

(** One turn of the polling loop: whether the sleep raises, the value of
    [random.random()], the draws for the event, and whether the sleep of
    the handler raises. *)
Record poll : Type := mkPoll {
  sleep_raises : option exn;
  random_random : float;
  draws : mock_draws;
  backoff_raises : option exn
}.

(** ** BlockchainConnector *)

Record BlockchainConnector : Type := mkConnector {
  chain_id : Z;
  rpc_url : string;
  contract_address : string
}.

(** [__init__]: the three attributes and the log line (building the
    [Web3] instance opens no connection). *)
Definition BlockchainConnector_init (chain : Z) (url addr : string)
  : M BlockchainConnector :=
  log INFO (MsgConnectorInit chain url);;
  ret {| chain_id := chain; rpc_url := url; contract_address := addr |}.

(** What an async generator hands to its consumer between two resumptions:
    the effects it performs, and the values it yields. *)
Inductive gen_item : Type :=
| GEffect (x : effect)
| GYield (ev : DepositEvent).

(** How the run of a generator over finitely many polls ends: suspended in
    its loop, or dead from an exception that left it. *)
Inductive gen_end : Type :=
| Suspended
| Died (e : exn).

(** The double nearest to the literal [0.6]. *)
Definition threshold : float := 0x1.3333333333333p-1%float.

Definition hex_alphabet : list ascii :=
  list_ascii_of_string "0123456789abcdef".

Section Connector.
Context {W : Web3Lib}.

Definition _generate_mock_event (self : BlockchainConnector) (nonce : Z)
    (d : mock_draws) : result DepositEvent :=
  let tx := to_hex (tx_rand d) in
  let dst := if chain_id self =? 1 then 137 else 1 in
  match to_checksum_address
          (String.append "0x" (string_of_list_ascii (depositor_chars d))) with
  | Raise e => Raise e
  | Ok dep =>
      match to_checksum_address
              (String.append "0x" (string_of_list_ascii (recipient_chars d))) with
      | Raise e => Raise e
      | Ok rcp =>
          Ok {| transaction_hash := tx;
                source_chain_id := chain_id self;
                destination_chain_id := dst;
                depositor := dep;
                recipient := rcp;
                token_address := "0xA0b86991c6218b36c1d19D4a2e9Eb0cE3606eB48";
                amount := amount_rand d * 10 ^ 6;
                nonce := nonce |}
      end
  end.

(** The [except Exception] clause of the loop, then the next turn:
    [k] is the rest of the loop. *)
Definition poll_handler (self : BlockchainConnector) (p : poll) (e : exn)
    (k : list gen_item * gen_end) : list gen_item * gen_end :=
  if isinstance_Exception e then
    match backoff_raises p with
    | Some e' => ([GEffect (Log ERROR (MsgPollError (chain_id self) e))], Died e')
    | None =>
        let (items, fin) := k in
        (GEffect (Log ERROR (MsgPollError (chain_id self) e)) :: items, fin)
    end
  else ([], Died e).

(** The [while True] loop of [listen_for_deposits], one [poll] per turn. *)
Fixpoint listen_loop (self : BlockchainConnector) (nonce_counter : Z)
    (polls : list poll) : list gen_item * gen_end :=
  match polls with
  | [] => ([], Suspended)
  | p :: rest =>
      match sleep_raises p with
      | Some e => poll_handler self p e (listen_loop self nonce_counter rest)
      | None =>
          if PrimFloat.ltb threshold (random_random p) then
            let nonce_counter := nonce_counter + 1 in
            match _generate_mock_event self nonce_counter (draws p) with
            | Raise e =>
                poll_handler self p e (listen_loop self nonce_counter rest)
            | Ok event =>
                let (items, fin) := listen_loop self nonce_counter rest in
                (GEffect (Log INFO (MsgNewEvent (chain_id self)
                                      (transaction_hash event)))
                   :: GYield event :: items, fin)
            end
          else
            let (items, fin) := listen_loop self nonce_counter rest in
            (GEffect (Log DEBUG (MsgNoNewEvents (chain_id self))) :: items, fin)
      end
  end.

Definition listen_for_deposits (self : BlockchainConnector)
    (polls : list poll) : list gen_item * gen_end :=
  let (items, fin) := listen_loop self 0 polls in
  (GEffect (Log INFO (MsgListening (chain_id self))) :: items, fin).
End Connector.

(** The events a generator yields, in order. *)
Fixpoint yielded (items : list gen_item) : list DepositEvent :=
  match items with
  | [] => []
  | GYield ev :: rest => ev :: yielded rest
  | GEffect _ :: rest => yielded rest
  end.

(** ** EventProcessor *)

Section EventProcessor.
Context {W : Web3Lib}.

Definition _is_valid_event (event : DepositEvent) : bool :=
  if amount event <=? 0 then false
  else if negb (is_address (depositor event))
          || negb (is_address (recipient event)) then false
  else true.

(** The two [except] clauses of [_get_token_price]; both fall through to
    the final [return None]. *)
Definition price_handlers (e : exn) : option (M (option float)) :=
  if isinstance_ClientError e then
    Some (log ERROR (MsgPriceClientError e);; ret None)
  else if isinstance_Exception e then
    Some (log ERROR (MsgPriceUnexpected e);; ret None)
  else None.

Definition _get_token_price (session : session_state) (x : get_outcome)
    : M (option float) :=
  try_except
    (if negb (session_available session) then
       log WARNING MsgNoSessionForPrice;; ret None
     else
       emit (HttpGet Config.TOKEN_PRICE_API);;
       match x with
       | GetRaises e => raise e
       | GetJson None => ret None
       | GetJson (Some price) =>
           if py_bool price then
             log DEBUG MsgFetchedPrice;;
             f <- lift (py_float price);;
             ret (Some f)
           else ret None
       end)
    price_handlers.

(** The default limit of the interpreter on the number of digits of an
    [int] that is turned into text; beyond it, formatting the [int] in an
    f-string raises [ValueError]. *)
Definition int_max_str_digits : nat := 4300.

Definition decimal_digits (z : Z) : nat :=
  String.length (str_of_int (Z.abs z)).

Definition prints (z : Z) : Prop :=
  (decimal_digits z <= int_max_str_digits)%nat.

(** Every integer of the event can be formatted. *)
Definition event_prints (ev : DepositEvent) : Prop :=
  prints (source_chain_id ev) /\ prints (destination_chain_id ev) /\
  prints (amount ev) /\ prints (nonce ev).

(** The f-string that is hashed. *)
Definition message_to_sign (event : DepositEvent) : string :=
  String.append (recipient event)
    (String.append "-"
       (String.append (token_address event)
          (String.append "-"
             (String.append (str_of_int (amount event))
                (String.append "-"
                   (String.append (str_of_int (nonce event))
                      (String.append "-"
                         (str_of_int (destination_chain_id event))))))))).

Definition message_hash (event : DepositEvent) : string :=
  keccak_hex (message_to_sign event).

Definition _request_validator_signatures (event : DepositEvent) : M unit :=
  log INFO (MsgRequestingSignatures (message_hash event)).

Definition report_payload (event : DepositEvent) (v : pynum) : payload :=
  {| tx_hash := transaction_hash event;
     source_chain := source_chain_id event;
     dest_chain := destination_chain_id event;
     payload_amount := amount event;
     value_usd := v;
     status := "PROCESSED" |}.

(** The single [except aiohttp.ClientError] clause of the report. *)
Definition report_handlers (e : exn) : option (M unit) :=
  if isinstance_ClientError e then Some (log ERROR (MsgReportError e))
  else None.

Definition _report_to_monitoring_service (session : session_state)
    (event : DepositEvent) (v : pynum) (x : post_outcome) : M unit :=
  let body := report_payload event v in
  try_except
    (if negb (session_available session) then
       log WARNING MsgNoSessionForReport
     else
       emit (HttpPost Config.MONITORING_API_ENDPOINT body);;
       match x with
       | PostRaises e => raise e
       | PostStatus code =>
           if code =? 200 then log INFO (MsgReported (nonce event))
           else log WARNING (MsgReportFailed code)
       end)
    report_handlers.


(** Step 2 of [process_event]: the local [value_usd] is bound ([Some])
    only under [if token_price_usd:]. *)
Definition enrich (event : DepositEvent) (token_price_usd : option float)
    : M (option float) :=
  match token_price_usd with
  | Some p =>
      if float_truthy p then
        q <- lift (int_truediv (amount event) (10 ^ 6));;
        let value_usd := PrimFloat.mul q p in
        log INFO (MsgEnriched value_usd);;
        ret (Some value_usd)
      else ret None
  | None => ret None
  end.

(** The argument [value_usd if token_price_usd else -1]. *)
Definition reported_value (value_usd : option float) : pynum :=
  match value_usd with
  | Some v => PyFloat v
  | None => PyInt (-1)
  end.

(** The log lines are kept as values: the formatting of their integers is
    not a step of the model. In the interpreter an f-string over an [int]
    of more than [int_max_str_digits] digits raises [ValueError]; the
    properties below that say that a step is reached assume [event_prints]
    of the event. *)
Definition process_event (w : world) (event : DepositEvent) : M unit :=
  log INFO (MsgProcessing (nonce event) (source_chain_id event)
              (destination_chain_id event));;
  if negb (_is_valid_event event) then
    log WARNING (MsgInvalidEvent event)
  else
    token_price_usd <- _get_token_price (session_at_fetch w) (price_exchange w);;
    value_usd <- enrich event token_price_usd;;
    emit (Call (RequestSignatures event));;
    _request_validator_signatures event;;
    emit (Call (ReportToMonitoring event (reported_value value_usd)));;
    _report_to_monitoring_service (session_at_report w) event
      (reported_value value_usd) (report_exchange w);;
    log INFO (MsgProcessed (nonce event)).
End EventProcessor.

(** ** CrossChainBridgeListener *)

Record listener : Type := mkListener {
  chains_to_listen : list Z;
  connectors : gmap Z BlockchainConnector;
  session : session_state;
  _is_running : bool
}.

(** [__init__]. *)
Definition listener_init (chains : list Z) : listener :=
  {| chains_to_listen := chains;
     connectors := ∅;
     session := NoSession;
     _is_running := false |}.

Definition set_connectors (c : gmap Z BlockchainConnector) (l : listener)
  : listener :=
  {| chains_to_listen := chains_to_listen l;
     connectors := c;
     session := session l;
     _is_running := _is_running l |}.

Definition set_session (s : session_state) (l : listener) : listener :=
  {| chains_to_listen := chains_to_listen l;
     connectors := connectors l;
     session := s;
     _is_running := _is_running l |}.

Definition set_running (b : bool) (l : listener) : listener :=
  {| chains_to_listen := chains_to_listen l;
     connectors := connectors l;
     session := session l;
     _is_running := b |}.

(** The [for] loop of [_initialize_connectors] over the dictionary it
    fills; the second subscript raises [KeyError] on a missing key. *)
Fixpoint initialize_loop (chains : list Z)
    (acc : gmap Z BlockchainConnector) : M (gmap Z BlockchainConnector) :=
  match chains with
  | [] => ret acc
  | chain :: rest =>
      match Config.RPC_ENDPOINTS !! chain with
      | None =>
          log ERROR (MsgConfigMissing chain);;
          initialize_loop rest acc
      | Some url =>
          match Config.BRIDGE_CONTRACT_ADDRESSES !! chain with
          | None => raise KeyError
          | Some addr =>
              c <- BlockchainConnector_init chain url addr;;
              initialize_loop rest (<[chain := c]> acc)
          end
      end
  end.

Definition _initialize_connectors (self : listener) : M listener :=
  c <- initialize_loop (chains_to_listen self) (connectors self);;
  ret (set_connectors c self).

(** [async for event in items: await body(event)]. *)
Fixpoint async_for (items : list gen_item) (body : DepositEvent -> M unit)
  : M unit :=
  match items with
  | [] => ret tt
  | GEffect x :: rest => emit x;; async_for rest body
  | GYield ev :: rest => body ev;; async_for rest body
  end.

Definition start_session (self : listener) : M listener :=
  if negb (session_available (session self)) then
    log INFO MsgSessionStarted;; ret (set_session SessionOpen self)
  else ret self.

Definition close_session (self : listener) : M listener :=
  if session_available (session self) then
    log INFO MsgSessionClosed;; ret (set_session SessionClosed self)
  else ret self.

Definition shutdown (self : listener) : M listener :=
  if _is_running self then
    log INFO MsgShuttingDown;;
    self' <- close_session (set_running false self);;
    log INFO MsgShutdownComplete;;
    ret self'
  else ret self.

(** [asyncio.gather] over tasks that loop for ever: it returns only by
    raising, and what it raises is the first exception that reaches it;
    [failures] lists, in order of time, the exceptions that the listener
    tasks raise and a cancellation of [run] itself. *)
Definition gather (failures : list exn) : option exn := head failures.

(** How [run] ends within the period observed. *)
Inductive run_end : Type :=
| Returned
| Serving.

Section Listener.
Context {W : Web3Lib}.

(** The task of one chain, over the polls of its connector; [env] is what
    the outside world answers while an event is processed. [Ok tt] means
    the task is still listening after the last poll. *)
Definition _listener_task (self : listener) (chain : Z)
    (polls : list poll) (env : DepositEvent -> world) : M unit :=
  match connectors self !! chain with
  | None => raise KeyError
  | Some connector =>
      let (items, fin) := listen_for_deposits connector polls in
      async_for items (fun event => process_event (env event) event);;
      match fin with
      | Suspended => ret tt
      | Died e => raise e
      end
  end.

(** The [except asyncio.CancelledError] clause of [run]. *)
Definition run_handlers (e : exn) : option (M unit) :=
  match e with
  | CancelledError => Some (log INFO MsgCancelled)
  | _ => None
  end.

Definition run (self : listener) (failures : list exn) : M run_end :=
  self <- _initialize_connectors self;;
  if decide (connectors self = ∅) then
    log ERROR MsgNoValidChains;; ret Returned
  else
    let self := set_running true self in
    log INFO MsgStarting;;
    self <- start_session self;;
    match gather failures with
    | None => ret Serving
    | Some e =>
        try_finally (try_except (raise e) run_handlers)
                    (shutdown self;; ret tt);;
        ret Returned
    end.
End Listener.

(** ** Observations on traces *)

(** The downstream steps called, in order. *)
Fixpoint calls (t : trace) : list call :=
  match t with
  | [] => []
  | Call c :: rest => c :: calls rest
  | _ :: rest => calls rest
  end.

(** A downstream step without the value it carries. *)
Inductive step : Type :=
| Dispatched (ev : DepositEvent)
| Reported (ev : DepositEvent).

Definition step_of (c : call) : step :=
  match c with
  | RequestSignatures ev => Dispatched ev
  | ReportToMonitoring ev _ => Reported ev
  end.

Definition steps (t : trace) : list step := map step_of (calls t).

(** The bodies sent to the monitoring endpoint, in order. *)
Fixpoint posted (t : trace) : list payload :=
  match t with
  | [] => []
  | HttpPost _ body :: rest => body :: posted rest
  | _ :: rest => posted rest
  end.


(** The nonces of the events whose processing starts, in order (the first
    log line of [process_event]). *)
Fixpoint started (t : trace) : list Z :=
  match t with
  | [] => []
  | Log _ (MsgProcessing n _ _) :: rest => n :: started rest
  | _ :: rest => started rest
  end.

(** A trace with no downstream call, no event taken up, no report posted. *)
Definition silent (t : trace) : Prop :=
  calls t = [] /\ started t = [] /\ posted t = [].

(** The effects a generator performs itself, in order. *)
Fixpoint gen_effects (items : list gen_item) : trace :=
  match items with
  | [] => []
  | GEffect x :: rest => x :: gen_effects rest
  | GYield _ :: rest => gen_effects rest
  end.



(** What [random.choices('0123456789abcdef', k=40)] can return. *)
Definition hex40 (cs : list ascii) : Prop :=
  length cs = 40%nat /\ Forall (fun c => In c hex_alphabet) cs.

(** The draws that [random] can produce for [_generate_mock_event]. *)
Definition draws_wf (d : mock_draws) : Prop :=
  1 <= tx_rand d <= 10 ^ 18 /\
  hex40 (depositor_chars d) /\
  hex40 (recipient_chars d) /\
  100 <= amount_rand d <= 10000.

(** ** A stand-in for the Web3 helpers

    Used to run the model on concrete inputs. An address is accepted when
    it is [0x] followed by forty hexadecimal digits, the checksum of an
    address is the address itself, and the digest of a text is the text.
    On an address written with decimal digits only, which is what the
    examples use, [is_address] and [to_checksum_address] of the library
    give the same answers (such an address has no letter to put in upper
    case). *)

Definition is_hex_digit (c : ascii) : bool :=
  existsb (Ascii.eqb c) (list_ascii_of_string "0123456789abcdefABCDEF").

Definition is_hex_address (s : string) : bool :=
  match s with
  | String "0" (String "x" body) =>
      (length (list_ascii_of_string body) =? 40)%nat
      && forallb is_hex_digit (list_ascii_of_string body)
  | _ => false
  end.

Definition Web3_sim : Web3Lib :=
  {| to_hex := fun z => String.append "0x" (str_of_int z);
     to_checksum_address :=
       fun s => if is_hex_address s then Ok s else Raise ValueError;
     is_address := is_hex_address;
     keccak_hex := fun s => s |}.

Definition addr1 : string := "0x1111111111111111111111111111111111111111".
Definition addr2 : string := "0x2222222222222222222222222222222222222222".
Definition usdc : string := "0xA0b86991c6218b36c1d19D4a2e9Eb0cE3606eB48".

(** A deposit of 250 USDC from chain [src] to chain [dst]. *)
Definition deposit (src dst n : Z) : DepositEvent :=
  {| transaction_hash := "0xabc";
     source_chain_id := src;
     destination_chain_id := dst;
     depositor := addr1;
     recipient := addr2;
     token_address := usdc;
     amount := 250000000;
     nonce := n |}.

Definition with_amount (a : Z) (ev : DepositEvent) : DepositEvent :=
  {| transaction_hash := transaction_hash ev;
     source_chain_id := source_chain_id ev;
     destination_chain_id := destination_chain_id ev;
     depositor := depositor ev;
     recipient := recipient ev;
     token_address := token_address ev;
     amount := a;
     nonce := nonce ev |}.

(** The price endpoint answers [x]; the monitoring endpoint answers [y];
    the session is open. *)
Definition online (x : get_outcome) (y : post_outcome) : world :=
  {| session_at_fetch := SessionOpen;
     price_exchange := x;
     session_at_report := SessionOpen;
     report_exchange := y |}.

(** The JSON number [2000.0]. *)
Definition price_2000 : pyobj :=
  {| py_bool := true; py_float := Ok 2000%float |}.


Definition digits40 (c : ascii) : list ascii := repeat c 40.

(** A poll that finds an event ([random.random()] gives [0.75]). *)
Definition poll_hit : poll :=
  {| sleep_raises := None;
     random_random := 0.75%float;
     draws := {| tx_rand := 7;
                 depositor_chars := digits40 "1";
                 recipient_chars := digits40 "2";
                 amount_rand := 250 |};
     backoff_raises := None |}.

(** The same transfer as [deposit 1 137 n], seen in another transaction,
    from another depositor, on another source chain. *)
Definition deposit_elsewhere (n : Z) : DepositEvent :=
  {| transaction_hash := "0xdef";
     source_chain_id := 56;
     destination_chain_id := 137;
     depositor := addr2;
     recipient := addr2;
     token_address := usdc;
     amount := 250000000;
     nonce := n |}.

(** Every request succeeds: the price is 2000 USD, the report gets 200. *)
Definition all_well : world :=
  online (GetJson (Some price_2000)) (PostStatus 200).

(** The price comes; the report request runs into the total timeout of the
    session, and [session.post] raises [asyncio.TimeoutError]. *)
Definition report_times_out : world :=
  online (GetJson (Some price_2000)) (PostRaises TimeoutError).

(** The listener at the point where [run] awaits its tasks, started for
    chains 1 and 137. *)
Definition listener_serving : listener :=
  {| chains_to_listen := [1; 137];
     connectors :=
       {[ 1 := {| chain_id := 1;
                  rpc_url := "https://mainnet.infura.io/v3/YOUR_INFURA_KEY";
                  contract_address := "0xSourceBridgeContractAddress..." |};
          137 := {| chain_id := 137;
                    rpc_url := "https://polygon-rpc.com/";
                    contract_address := "0xDestBridgeContractAddress..." |} ]};
     session := SessionOpen;
     _is_running := true |}.

(** The URLs fetched with GET, in order. *)
Fixpoint requested (t : trace) : list string :=
  match t with
  | [] => []
  | HttpGet url :: rest => url :: requested rest
  | _ :: rest => requested rest
  end.

(** How many times the session is reported opened, and closed. *)
Fixpoint session_openings (t : trace) : nat :=
  match t with
  | [] => 0%nat
  | Log _ MsgSessionStarted :: rest => S (session_openings rest)
  | _ :: rest => session_openings rest
  end.

Fixpoint session_closings (t : trace) : nat :=
  match t with
  | [] => 0%nat
  | Log _ MsgSessionClosed :: rest => S (session_closings rest)
  | _ :: rest => session_closings rest
  end.

(** A poll in which no sleep raises. *)
Definition poll_quiet_sleeps (p : poll) : Prop :=
  sleep_raises p = None /\ backoff_raises p = None.

(** A poll whose sleep is cancelled. *)
Definition poll_cancelled : poll :=
  {| sleep_raises := Some CancelledError;
     random_random := 0.75%float;
     draws := {| tx_rand := 7;
                 depositor_chars := digits40 "1";
                 recipient_chars := digits40 "2";
                 amount_rand := 250 |};
     backoff_raises := None |}.

(** The connector that [_initialize_connectors] builds for chain 1. *)
Definition connector1 : BlockchainConnector :=
  {| chain_id := 1;
     rpc_url := "https://mainnet.infura.io/v3/YOUR_INFURA_KEY";
     contract_address := "0xSourceBridgeContractAddress..." |}.

(** The report request times out for the event with nonce 2 and succeeds
    for the others. *)
Definition second_report_times_out (ev : DepositEvent) : world :=
  if nonce ev =? 2 then report_times_out else all_well.

(** A poll that finds nothing ([random.random()] gives [0.25]). *)
Definition poll_miss : poll :=
  {| sleep_raises := None;
     random_random := 0.25%float;
     draws := {| tx_rand := 7;
                 depositor_chars := digits40 "1";
                 recipient_chars := digits40 "2";
                 amount_rand := 250 |};
     backoff_raises := None |}.

(** ** Decimal text *)

Definition is_digit (c : ascii) : bool :=
  existsb (Ascii.eqb c) (list_ascii_of_string "0123456789").

Fixpoint all_digits (s : string) : bool :=
  match s with
  | EmptyString => true
  | String c rest => is_digit c && all_digits rest
  end.

(** ** The configuration reader *)

(** How [get_config_value_5888] ends: it returns a value or [None], or the
    subscript [[1]] raises [IndexError], or [open] raises. *)
Inductive config_outcome : Type :=
| ConfigReturns (v : option string)
| ConfigIndexError
| ConfigOSError.

(** [s.split(sep)] for a separator of one character: the pieces between
    the occurrences of [sep], at least one piece. *)
Fixpoint split_on (sep : ascii) (s : string) : list string :=
  match s with
  | EmptyString => [EmptyString]
  | String c rest =>
      if Ascii.eqb c sep then EmptyString :: split_on sep rest
      else match split_on sep rest with
           | piece :: pieces => String c piece :: pieces
           | [] => [String c EmptyString]
           end
  end.

Section ConfigReader.
(** [str.isspace] on one character. *)
Variable isspace : ascii -> bool.

Fixpoint lstrip_chars (cs : list ascii) : list ascii :=
  match cs with
  | c :: rest => if isspace c then lstrip_chars rest else cs
  | [] => []
  end.

(** [s.strip()]: white space removed at both ends. *)
Definition strip (s : string) : string :=
  string_of_list_ascii
    (rev (lstrip_chars (rev (lstrip_chars (list_ascii_of_string s))))).

(** The loop over the lines of the file. *)
Fixpoint scan_lines (key : string) (lines : list string) : config_outcome :=
  match lines with
  | [] => ConfigReturns None
  | line :: rest =>
      if String.prefix key line then
        match split_on "=" line with
        | _ :: value :: _ => ConfigReturns (Some (strip value))
        | _ => ConfigIndexError
        end
      else scan_lines key rest
  end.

(** [file] is [None] when [open] raises, and otherwise the lines that
    iterating over the file gives, each with its line end. *)
Definition get_config_value_5888 (file : option (list string))
    (key : string) : config_outcome :=
  match file with
  | None => ConfigOSError
  | Some lines => scan_lines key lines
  end.
End ConfigReader.

(** [str.isspace] on the characters with a code below 256: the codes 9 to
    13, 28 to 32, 133 and 160. *)
Definition latin1_isspace (c : ascii) : bool :=
  let n := nat_of_ascii c in
  ((9 <=? n) && (n <=? 13) || (28 <=? n) && (n <=? 32)
   || (n =? 133) || (n =? 160))%nat.

(** A small configuration file, line by line. *)
Definition config_lines : list string :=
  ["# settings" ++ String "010" EmptyString;
   "port = 8080" ++ String "010" EmptyString;
   "name= bridge =x" ++ String "010" EmptyString]%string.

(** Three lines of a configuration file. *)
Definition line_comment : string :=
  String.append "# settings" (String "010" EmptyString).

Definition line_portal : string :=
  String.append "portal = 8080" (String "010" EmptyString).

Definition line_port : string :=
  String.append "port=1" (String "010" EmptyString).

(** A deposit whose amount, [10**400], is too large for [amount / 10**6]
    to fit a [float]. *)
Definition huge_deposit : DepositEvent :=
  with_amount (10 ^ 400) (deposit 1 137 1).

(** The price endpoint answers without a price; the report gets 200. *)
Definition price_missing : world :=
  online (GetJson None) (PostStatus 200).

(** What one item handed over by the generator contributes to the trace
    of the loop that consumes it: the effect itself, or everything that the
    body does with the event yielded. *)
Definition item_effects (body : DepositEvent -> M unit) (item : gen_item)
  : trace :=
  match item with
  | GEffect x => [x]
  | GYield ev => effects (body ev)
  end.


(** * Properties *)

(** The integers of the sample deposit can all be formatted. *)
Lemma event_prints_deposit : event_prints (deposit 1 137 1).
Proof.
  unfold event_prints, prints. repeat split; apply Nat.leb_le; vm_compute;
    reflexivity.
Defined.

(** ** Traces and the monad *)

Lemma calls_app (t1 t2 : trace) : calls (t1 ++ t2) = calls t1 ++ calls t2.
Proof.
  induction t1 as [|x t1 IH]; [reflexivity|].
  destruct x; simpl; rewrite IH; reflexivity.
Qed.

Lemma started_app (t1 t2 : trace) :
  started (t1 ++ t2) = started t1 ++ started t2.
Proof.
  induction t1 as [|x t1 IH]; [reflexivity|].
  destruct x as [l m| | |]; simpl; try assumption.
  destruct m; simpl; rewrite IH; reflexivity.
Qed.

Lemma effects_bind {A B} (m : M A) (k : A -> M B) :
  effects (bind m k) =
  match outcome m with
  | Ok a => effects m ++ effects (k a)
  | Raise _ => effects m
  end.
Proof.
  destruct m as [t [a|e]]; simpl; [|reflexivity].
  destruct (k a); reflexivity.
Qed.

Lemma outcome_bind {A B} (m : M A) (k : A -> M B) :
  outcome (bind m k) =
  match outcome m with
  | Ok a => outcome (k a)
  | Raise e => Raise e
  end.
Proof.
  destruct m as [t [a|e]]; simpl; [|reflexivity].
  destruct (k a); reflexivity.
Qed.

(** Unfolds the monad down to pairs. *)
Ltac unfold_m :=
  unfold bind, try_except, try_finally, log, emit, ret, raise, lift,
    effects, outcome in *.

(** ** The validator *)

Section Validator.
Context {W : Web3Lib}.

(** What the validator looks at: the amount and the two addresses. *)
Lemma _is_valid_event_spec (ev : DepositEvent) :
  _is_valid_event ev =
  (0 <? amount ev) && is_address (depositor ev) && is_address (recipient ev).
Proof.
  unfold _is_valid_event.
  destruct (Z.leb_spec (amount ev) 0) as [H|H];
    destruct (Z.ltb_spec 0 (amount ev)) as [H'|H']; try lia; simpl;
    try reflexivity.
  destruct (is_address (depositor ev)), (is_address (recipient ev));
    reflexivity.
Qed.

Lemma invalid_iff (ev : DepositEvent) :
  _is_valid_event ev = false <->
  amount ev <= 0 \/ is_address (depositor ev) = false
  \/ is_address (recipient ev) = false.
Proof.
  rewrite _is_valid_event_spec.
  destruct (Z.ltb_spec 0 (amount ev)) as [H|H];
    destruct (is_address (depositor ev)), (is_address (recipient ev));
    simpl; split; intros; try tauto; try discriminate;
    try (repeat match goal with
                | H : _ \/ _ |- _ => destruct H
                end; try lia; discriminate).
Qed.

(** An event that the validator rejects is logged and dropped. *)
Lemma process_event_invalid (w : world) (ev : DepositEvent) :
  _is_valid_event ev = false ->
  process_event w ev =
  ([Log INFO (MsgProcessing (nonce ev) (source_chain_id ev)
                (destination_chain_id ev));
    Log WARNING (MsgInvalidEvent ev)], Ok tt).
Proof.
  intros H. unfold process_event. rewrite H. reflexivity.
Qed.
End Validator.

(** C7. An event whose amount is zero or negative is rejected by
    [_is_valid_event]; [process_event] then calls neither
    [_request_validator_signatures] nor [_report_to_monitoring_service],
    fetches no price and posts nothing. *)
Theorem process_event_drops_nonpositive_amount
    (W : Web3Lib) (w : world) (ev : DepositEvent) :
  amount ev <= 0 ->
  _is_valid_event ev = false /\
  calls (effects (process_event w ev)) = [] /\
  posted (effects (process_event w ev)) = [] /\
  requested (effects (process_event w ev)) = [].
Proof.
  intros Hle.
  assert (Hinv : _is_valid_event ev = false).
  { apply invalid_iff. left. exact Hle. }
  rewrite (process_event_invalid w ev Hinv).
  split; [exact Hinv|].
  repeat split.
Qed.

Lemma process_event_drops_nonpositive_amount_witness :
  amount (with_amount 0 (deposit 1 137 1)) <= 0 /\
  @_is_valid_event Web3_sim (with_amount 0 (deposit 1 137 1)) = false /\
  calls (effects (@process_event Web3_sim
                    (online (GetJson (Some price_2000)) (PostStatus 200))
                    (with_amount 0 (deposit 1 137 1)))) = [] /\
  posted (effects (@process_event Web3_sim
                     (online (GetJson (Some price_2000)) (PostStatus 200))
                     (with_amount 0 (deposit 1 137 1)))) = [] /\
  requested (effects (@process_event Web3_sim
                        (online (GetJson (Some price_2000)) (PostStatus 200))
                        (with_amount 0 (deposit 1 137 1)))) = [].
Proof.
  split.
  - simpl. lia.
  - apply (process_event_drops_nonpositive_amount Web3_sim). simpl. lia.
Defined.

(** C1, as the code has it. For an event whose source and destination
    chains are equal, the validator rejects exactly when the amount is not
    positive or an address is not well formed: the chain identifiers are
    not compared. When it rejects, [process_event] neither dispatches nor
    reports the event. *)
Theorem same_chain_event_validation
    (W : Web3Lib) (w : world) (ev : DepositEvent) :
  source_chain_id ev = destination_chain_id ev ->
  (_is_valid_event ev = false <->
   amount ev <= 0 \/ is_address (depositor ev) = false
   \/ is_address (recipient ev) = false) /\
  (_is_valid_event ev = false ->
   calls (effects (process_event w ev)) = [] /\
   posted (effects (process_event w ev)) = []).
Proof.
  intros _. split.
  - apply invalid_iff.
  - intros Hinv. rewrite (process_event_invalid w ev Hinv). repeat split.
Qed.

(** At a same-chain event with amount 0: it is rejected, and neither
    dispatched nor reported. *)
Lemma same_chain_event_validation_witness :
  let ev := with_amount 0 (deposit 1 1 1) in
  source_chain_id ev = destination_chain_id ev /\
  @_is_valid_event Web3_sim ev = false /\
  (@_is_valid_event Web3_sim ev = false <->
   amount ev <= 0
   \/ @is_address Web3_sim (depositor ev) = false
   \/ @is_address Web3_sim (recipient ev) = false) /\
  calls (effects (@process_event Web3_sim all_well ev)) = [] /\
  posted (effects (@process_event Web3_sim all_well ev)) = [].
Proof.
  pose proof (same_chain_event_validation Web3_sim all_well
                (with_amount 0 (deposit 1 1 1)) eq_refl) as [Hiff Hdrop].
  split; [reflexivity|]. split; [reflexivity|]. split; [exact Hiff|].
  exact (Hdrop eq_refl).
Defined.

(** C1, as the specification states it, fails: an event from chain 1 to
    chain 1 with a positive amount and two well-formed addresses passes
    [_is_valid_event] (whatever the library, as soon as it accepts the two
    addresses), and [process_event] dispatches and reports it. *)
Lemma same_chain_event_is_accepted :
  source_chain_id (deposit 1 1 1) = destination_chain_id (deposit 1 1 1) /\
  (forall W : Web3Lib,
      is_address addr1 = true -> is_address addr2 = true ->
      _is_valid_event (deposit 1 1 1) = true) /\
  @_is_valid_event Web3_sim (deposit 1 1 1) = true /\
  calls (effects (@process_event Web3_sim all_well (deposit 1 1 1))) =
    [RequestSignatures (deposit 1 1 1);
     ReportToMonitoring (deposit 1 1 1) (PyFloat 500000%float)] /\
  map dest_chain
    (posted (effects (@process_event Web3_sim all_well (deposit 1 1 1)))) = [1].
Proof.
  split; [reflexivity|]. split.
  - intros W H1 H2. rewrite _is_valid_event_spec. simpl. rewrite H1, H2.
    reflexivity.
  - vm_compute. repeat split.
Qed.

(** ** The signature request *)

(** C5. Two events that agree on recipient, token address, amount, nonce
    and destination chain get the same message hash, and the signature
    request does the same for both; the transaction hash, the depositor and
    the source chain play no part. *)
Theorem message_hash_deterministic (W : Web3Lib) (e1 e2 : DepositEvent) :
  recipient e1 = recipient e2 ->
  token_address e1 = token_address e2 ->
  amount e1 = amount e2 ->
  nonce e1 = nonce e2 ->
  destination_chain_id e1 = destination_chain_id e2 ->
  message_hash e1 = message_hash e2 /\
  _request_validator_signatures e1 = _request_validator_signatures e2.
Proof.
  intros Hr Ht Ha Hn Hd.
  assert (Hm : message_to_sign e1 = message_to_sign e2).
  { unfold message_to_sign. rewrite Hr, Ht, Ha, Hn, Hd. reflexivity. }
  unfold _request_validator_signatures, message_hash. rewrite Hm.
  split; reflexivity.
Qed.

Lemma message_hash_deterministic_witness :
  transaction_hash (deposit 1 137 4) <> transaction_hash (deposit_elsewhere 4) /\
  @message_hash Web3_sim (deposit 1 137 4) =
  @message_hash Web3_sim (deposit_elsewhere 4) /\
  @_request_validator_signatures Web3_sim (deposit 1 137 4) =
  @_request_validator_signatures Web3_sim (deposit_elsewhere 4).
Proof.
  split.
  - discriminate.
  - apply (message_hash_deterministic Web3_sim (deposit 1 137 4)
             (deposit_elsewhere 4)); reflexivity.
Defined.

(** ** The mock listener *)

Section ListenerNonces.
Context {W : Web3Lib}.

Lemma _generate_mock_event_nonce (self : BlockchainConnector) (n : Z)
    (d : mock_draws) (ev : DepositEvent) :
  _generate_mock_event self n d = Ok ev -> nonce ev = n.
Proof.
  unfold _generate_mock_event.
  destruct (to_checksum_address _); [|discriminate].
  destruct (to_checksum_address _); [|discriminate].
  intros H. injection H as <-. reflexivity.
Qed.

Lemma yielded_poll_handler (self : BlockchainConnector) (p : poll) (e : exn)
    (k : list gen_item * gen_end) :
  yielded (fst (poll_handler self p e k)) = yielded (fst k)
  \/ yielded (fst (poll_handler self p e k)) = [].
Proof.
  unfold poll_handler.
  destruct (isinstance_Exception e); [|right; reflexivity].
  destruct (backoff_raises p); [right; reflexivity|].
  destruct k as [items fin]. left. reflexivity.
Qed.

(** The nonces yielded by the loop started with counter [n] are above
    [n] and strictly increasing. *)
Lemma listen_loop_nonces (self : BlockchainConnector) (polls : list poll) :
  forall n : Z,
    Forall (fun ev => n < nonce ev) (yielded (fst (listen_loop self n polls)))
    /\ StronglySorted Z.lt
         (map nonce (yielded (fst (listen_loop self n polls)))).
Proof.
  induction polls as [|p rest IH]; intros n; simpl.
  - split; constructor.
  - destruct (sleep_raises p) as [e|].
    { destruct (yielded_poll_handler self p e (listen_loop self n rest))
        as [-> | ->]; [apply IH | split; constructor]. }
    destruct (PrimFloat.ltb threshold (random_random p)).
    + destruct (IH (n + 1)) as [Habove Hsorted].
      assert (Habove' :
                Forall (fun ev => n < nonce ev)
                  (yielded (fst (listen_loop self (n + 1) rest)))).
      { eapply Forall_impl; [exact Habove|]. simpl. intros; lia. }
      destruct (_generate_mock_event self (n + 1) (draws p)) as [ev|e] eqn:Hg.
      * apply _generate_mock_event_nonce in Hg.
        destruct (listen_loop self (n + 1) rest) as [items fin]; simpl in *.
        split.
        -- constructor; [lia | exact Habove'].
        -- constructor; [exact Hsorted|].
           rewrite Hg. apply Forall_map. exact Habove.
      * destruct (yielded_poll_handler self p e
                    (listen_loop self (n + 1) rest)) as [-> | ->];
          [split; assumption | split; constructor].
    + specialize (IH n).
      destruct (listen_loop self n rest) as [items fin]. exact IH.
Qed.

Lemma yielded_listen_for_deposits (self : BlockchainConnector)
    (polls : list poll) :
  yielded (fst (listen_for_deposits self polls)) =
  yielded (fst (listen_loop self 0 polls)).
Proof.
  unfold listen_for_deposits.
  destruct (listen_loop self 0 polls) as [items fin]. reflexivity.
Qed.
End ListenerNonces.

(** C6. Whatever the polls bring, the nonces of the events that one run of
    [listen_for_deposits] yields are strictly increasing: each is below
    every nonce yielded after it. *)
Theorem listener_nonces_strictly_increase
    (W : Web3Lib) (self : BlockchainConnector) (polls : list poll) :
  StronglySorted Z.lt
    (map nonce (yielded (fst (listen_for_deposits self polls)))).
Proof.
  rewrite yielded_listen_for_deposits.
  apply (listen_loop_nonces self polls 0).
Qed.

(** ** The steps of [process_event] *)

Lemma posted_app (t1 t2 : trace) : posted (t1 ++ t2) = posted t1 ++ posted t2.
Proof.
  induction t1 as [|x t1 IH]; [reflexivity|].
  destruct x; simpl; rewrite IH; reflexivity.
Qed.


Lemma silent_fetch (s : session_state) (x : get_outcome) :
  silent (effects (_get_token_price s x)).
Proof.
  unfold silent, _get_token_price.
  destruct s; simpl; try (repeat split; reflexivity).
  destruct x as [e|[[b [f|e]]|]]; try destruct b; try destruct e;
    repeat split; reflexivity.
Qed.

Lemma silent_enrich (ev : DepositEvent) (tp : option float) :
  silent (effects (enrich ev tp)).
Proof.
  unfold silent, enrich.
  destruct tp as [p|]; [|repeat split; reflexivity].
  destruct (float_truthy p); [|repeat split; reflexivity].
  destruct (int_truediv (amount ev) (10 ^ 6)); repeat split; reflexivity.
Qed.

(** The report calls nothing further and posts at most its own payload:
    exactly that when the session is open. *)
Lemma report_effects (s : session_state) (ev : DepositEvent) (v : pynum)
    (y : post_outcome) :
  calls (effects (_report_to_monitoring_service s ev v y)) = [] /\
  started (effects (_report_to_monitoring_service s ev v y)) = [] /\
  posted (effects (_report_to_monitoring_service s ev v y)) =
    if session_available s then [report_payload ev v] else [].
Proof.
  unfold _report_to_monitoring_service.
  destruct s; simpl; try (repeat split; reflexivity).
  destruct y as [e|code]; [destruct e; repeat split; reflexivity|].
  unfold_m. destruct (code =? 200); repeat split; reflexivity.
Qed.

(** The value reported changes the body posted, not the outcome. *)
Lemma outcome_report_any_value (s : session_state) (ev : DepositEvent)
    (v v' : pynum) (y : post_outcome) :
  outcome (_report_to_monitoring_service s ev v y) =
  outcome (_report_to_monitoring_service s ev v' y).
Proof.
  unfold _report_to_monitoring_service.
  destruct s; simpl; try reflexivity.
  destruct y as [e|code]; [destruct e; reflexivity|].
  unfold_m. destruct (code =? 200); reflexivity.
Qed.

Section Processing.
Context {W : Web3Lib}.

(** How [process_event] goes for an event that passes validation: it
    stops where the price fetch or the value computation raises;
    otherwise it calls the two downstream steps, in order, posts what
    the report posts, and ends as the report ends. *)
Lemma process_event_valid (w : world) (ev : DepositEvent) :
  _is_valid_event ev = true ->
  started (effects (process_event w ev)) = [nonce ev] /\
  match outcome (_get_token_price (session_at_fetch w) (price_exchange w)) with
  | Raise e =>
      calls (effects (process_event w ev)) = [] /\
      posted (effects (process_event w ev)) = [] /\
      outcome (process_event w ev) = Raise e
  | Ok tp =>
      match outcome (enrich ev tp) with
      | Raise e =>
          calls (effects (process_event w ev)) = [] /\
          posted (effects (process_event w ev)) = [] /\
          outcome (process_event w ev) = Raise e
      | Ok value_usd =>
          calls (effects (process_event w ev)) =
            [RequestSignatures ev;
             ReportToMonitoring ev (reported_value value_usd)] /\
          posted (effects (process_event w ev)) =
            (if session_available (session_at_report w)
             then [report_payload ev (reported_value value_usd)] else []) /\
          outcome (process_event w ev) =
            outcome (_report_to_monitoring_service (session_at_report w) ev
                       (reported_value value_usd) (report_exchange w))
      end
  end.
Proof.
  intros Hvalid. unfold process_event. rewrite Hvalid. simpl negb.
  destruct (silent_fetch (session_at_fetch w) (price_exchange w))
    as (Hc1 & Hs1 & Hp1).
  unfold bind, log, emit, effects, outcome in *. cbv beta iota.
  destruct (_get_token_price (session_at_fetch w) (price_exchange w))
    as [t1 [tp|e]]; simpl in Hc1, Hs1, Hp1; cbn [fst snd].
  2: { cbn [calls started posted app]. rewrite Hc1, Hs1, Hp1.
       repeat split. }
  destruct (silent_enrich ev tp) as (Hc2 & Hs2 & Hp2).
  unfold effects in *.
  destruct (enrich ev tp) as [t2 [v|e]]; simpl in Hc2, Hs2, Hp2;
    cbn [fst snd].
  2: { cbn [calls started posted app].
       rewrite calls_app, started_app, posted_app,
         Hc1, Hs1, Hp1, Hc2, Hs2, Hp2.
       repeat split. }
  destruct (report_effects (session_at_report w) ev (reported_value v)
              (report_exchange w)) as (Hc3 & Hs3 & Hp3).
  unfold effects, _request_validator_signatures, log, emit in *.
  destruct (_report_to_monitoring_service (session_at_report w) ev
              (reported_value v) (report_exchange w)) as [t3 [[]|e]];
    simpl in Hc3, Hs3, Hp3; cbn [fst snd calls started posted app];
    rewrite ?calls_app, ?started_app, ?posted_app;
    cbn [calls started posted app];
    rewrite ?calls_app, ?started_app, ?posted_app;
    cbn [calls started posted app];
    rewrite ?Hc1, ?Hs1, ?Hp1, ?Hc2, ?Hs2, ?Hp2, ?Hc3, ?Hs3, ?Hp3;
    rewrite ?app_nil_r; repeat split.
Qed.

(** Whatever the event and the world, [process_event] takes up exactly
    the event it is given. *)
Lemma started_process_event (w : world) (ev : DepositEvent) :
  started (effects (process_event w ev)) = [nonce ev].
Proof.
  destruct (_is_valid_event ev) eqn:Hvalid.
  - apply (process_event_valid w ev Hvalid).
  - rewrite (process_event_invalid w ev Hvalid). reflexivity.
Qed.
End Processing.

(** ** Enrichment *)

(** What makes the price unavailable: no open session, an exception of
    class [Exception] from the exchange (a network error, a timeout, a
    body that is not JSON), a missing or false price field, a price that
    [float] refuses. *)
Lemma price_unavailable_causes (s : session_state) (x : get_outcome) :
  session_available s = false
  \/ (exists e, x = GetRaises e /\ isinstance_Exception e = true)
  \/ x = GetJson None
  \/ (exists price, x = GetJson (Some price) /\ py_bool price = false)
  \/ (exists price e, x = GetJson (Some price) /\ py_float price = Raise e
                      /\ isinstance_Exception e = true) ->
  outcome (_get_token_price s x) = Ok None.
Proof.
  unfold _get_token_price.
  intros [Hs | Hx].
  { rewrite Hs. reflexivity. }
  destruct s; try reflexivity. simpl.
  destruct Hx as [(e & -> & He) | [-> | [(p & -> & Hp) | (p & e & -> & Hp & He)]]].
  - destruct e; try discriminate; reflexivity.
  - reflexivity.
  - rewrite Hp. reflexivity.
  - destruct (py_bool p); [|reflexivity]. rewrite Hp.
    destruct e; try discriminate; reflexivity.
Qed.

(** C4, as the code has it. For an event that passes validation, whose
    integers can all be formatted and whose [amount / 10**6] fits a
    [float], when the price fetch returns
    [None], [process_event] still calls the signature request and then the
    report, with the value [-1], and ends as the report ends. Against any
    run of the same event in which a price came, with the same answers on
    the report side, the steps and the outcome are the same: the value
    reported is all that differs. *)
Theorem enrichment_unavailable_same_steps
    (W : Web3Lib) (w : world) (ev : DepositEvent) (q : float) :
  _is_valid_event ev = true ->
  event_prints ev ->
  int_truediv (amount ev) (10 ^ 6) = Ok q ->
  outcome (_get_token_price (session_at_fetch w) (price_exchange w)) = Ok None ->
  calls (effects (process_event w ev)) =
    [RequestSignatures ev; ReportToMonitoring ev (PyInt (-1))] /\
  outcome (process_event w ev) =
    outcome (_report_to_monitoring_service (session_at_report w) ev
               (PyInt (-1)) (report_exchange w)) /\
  (forall (w' : world) (p : float),
      outcome (_get_token_price (session_at_fetch w') (price_exchange w'))
        = Ok (Some p) ->
      session_at_report w' = session_at_report w ->
      report_exchange w' = report_exchange w ->
      calls (effects (process_event w' ev)) =
        [RequestSignatures ev;
         ReportToMonitoring ev
           (if float_truthy p then PyFloat (PrimFloat.mul q p)
            else PyInt (-1))] /\
      steps (effects (process_event w' ev)) =
        steps (effects (process_event w ev)) /\
      outcome (process_event w' ev) = outcome (process_event w ev)).
Proof.
  intros Hvalid _ Hdiv Hnone.
  destruct (process_event_valid w ev Hvalid) as [_ Hw].
  rewrite Hnone in Hw. simpl in Hw. destruct Hw as (Hc & _ & Ho).
  split; [exact Hc|]. split; [exact Ho|].
  intros w' p Hsome Hs Hx.
  destruct (process_event_valid w' ev Hvalid) as [_ Hw'].
  rewrite Hsome in Hw'. unfold enrich in Hw'. rewrite Hdiv in Hw'.
  destruct (float_truthy p); simpl in Hw';
    destruct Hw' as (Hc' & _ & Ho');
    (split; [exact Hc'|]); split;
    try (unfold steps; rewrite Hc, Hc'; reflexivity);
    rewrite Ho, Ho', Hs, Hx; apply outcome_report_any_value.
Qed.

Lemma enrichment_unavailable_same_steps_witness :
  let w := online (GetRaises TimeoutError) (PostStatus 200) in
  let ev := deposit 1 137 1 in
  event_prints ev /\
  int_truediv (amount ev) (10 ^ 6) = Ok 250%float /\
  outcome (_get_token_price (session_at_fetch w) (price_exchange w)) = Ok None /\
  calls (effects (@process_event Web3_sim w ev)) =
    [RequestSignatures ev; ReportToMonitoring ev (PyInt (-1))] /\
  outcome (@process_event Web3_sim w ev) =
    outcome (_report_to_monitoring_service (session_at_report w) ev
               (PyInt (-1)) (report_exchange w)) /\
  (forall (w' : world) (p : float),
      outcome (_get_token_price (session_at_fetch w') (price_exchange w'))
        = Ok (Some p) ->
      session_at_report w' = session_at_report w ->
      report_exchange w' = report_exchange w ->
      calls (effects (@process_event Web3_sim w' ev)) =
        [RequestSignatures ev;
         ReportToMonitoring ev
           (if float_truthy p then PyFloat (PrimFloat.mul 250%float p)
            else PyInt (-1))] /\
      steps (effects (@process_event Web3_sim w' ev)) =
        steps (effects (@process_event Web3_sim w ev)) /\
      outcome (@process_event Web3_sim w' ev) =
        outcome (@process_event Web3_sim w ev)).
Proof.
  split; [exact event_prints_deposit|].
  split; [vm_compute; reflexivity|].
  split; [reflexivity|].
  apply (enrichment_unavailable_same_steps Web3_sim
           (online (GetRaises TimeoutError) (PostStatus 200))
           (deposit 1 137 1) 250%float);
    [vm_compute; reflexivity | exact event_prints_deposit
    | vm_compute; reflexivity | vm_compute; reflexivity].
Defined.

(** C4, as the specification states it, fails. For the valid event whose
    amount is [10**400] (401 digits, which can be formatted), whether the price comes decides where the event
    ends: without a price it is dispatched and reported, and the
    processing returns; with the price 2000 the division [amount / 10**6]
    raises [OverflowError] before the signature request, and the event is
    neither dispatched nor reported. *)
Lemma price_decides_outcome_of_huge_amount :
  @_is_valid_event Web3_sim huge_deposit = true /\
  decimal_digits (amount huge_deposit) = 401%nat /\
  outcome (_get_token_price (session_at_fetch price_missing)
             (price_exchange price_missing)) = Ok None /\
  calls (effects (@process_event Web3_sim price_missing huge_deposit)) =
    [RequestSignatures huge_deposit;
     ReportToMonitoring huge_deposit (PyInt (-1))] /\
  outcome (@process_event Web3_sim price_missing huge_deposit) = Ok tt /\
  outcome (_get_token_price (session_at_fetch all_well)
             (price_exchange all_well)) = Ok (Some 2000%float) /\
  session_at_report all_well = session_at_report price_missing /\
  report_exchange all_well = report_exchange price_missing /\
  calls (effects (@process_event Web3_sim all_well huge_deposit)) = [] /\
  outcome (@process_event Web3_sim all_well huge_deposit)
    = Raise OverflowError.
Proof. vm_compute. repeat split. Qed.

(** A run in which the price comes: it is 2000 USD, and 250 USDC are
    reported as 500000 USD. *)
Example enrichment_available_run :
  outcome (_get_token_price SessionOpen (GetJson (Some price_2000)))
    = Ok (Some 2000%float) /\
  float_truthy 2000%float = true /\
  int_truediv (amount (deposit 1 137 1)) (10 ^ 6) = Ok 250%float /\
  calls (effects (@process_event Web3_sim all_well (deposit 1 137 1))) =
    [RequestSignatures (deposit 1 137 1);
     ReportToMonitoring (deposit 1 137 1) (PyFloat 500000%float)].
Proof. vm_compute. repeat split. Qed.




(** ** The lane of one chain *)

Lemma started_cons (x : effect) (t : trace) :
  started (x :: t) = started [x] ++ started t.
Proof. apply (started_app [x] t). Qed.

Lemma StronglySorted_prefix (l1 l2 : list Z) :
  l1 `prefix_of` l2 -> StronglySorted Z.lt l2 -> StronglySorted Z.lt l1.
Proof.
  intros [k ->]. revert k. induction l1 as [|a l1 IH]; intros k Hs.
  - constructor.
  - simpl in Hs. inversion Hs as [|? ? Hs' Hall]; subst.
    constructor; [apply (IH k Hs')|].
    apply Forall_app in Hall. apply Hall.
Qed.

Section Lane.
Context {W : Web3Lib}.

(** The loop takes up the events in the order in which the generator
    yields them, up to the one whose processing raises, if any. *)
Lemma started_async_for (body : DepositEvent -> M unit)
    (items : list gen_item) :
  (forall ev, started (effects (body ev)) = [nonce ev]) ->
  started (gen_effects items) = [] ->
  started (effects (async_for items body)) `prefix_of`
    map nonce (yielded items)
  /\ (outcome (async_for items body) = Ok tt ->
      started (effects (async_for items body)) = map nonce (yielded items)).
Proof.
  intros Hbody. induction items as [|[x|ev] rest IH]; intros Hquiet.
  - split; [exists []; reflexivity | reflexivity].
  - cbn [gen_effects] in Hquiet. rewrite started_cons in Hquiet.
    apply app_eq_nil in Hquiet. destruct Hquiet as [Hx Hrest].
    destruct (IH Hrest) as [Hpre Hall].
    cbn [async_for yielded]. unfold bind, emit, effects, outcome in *.
    destruct (async_for rest body) as [t r]. cbn [fst snd app] in *.
    rewrite started_cons, Hx. exact (conj Hpre Hall).
  - cbn [gen_effects] in Hquiet. destruct (IH Hquiet) as [Hpre Hall].
    cbn [async_for yielded map]. specialize (Hbody ev).
    unfold bind, effects, outcome in *.
    destruct (body ev) as [t1 [[]|e]]; cbn [fst snd] in *.
    + destruct (async_for rest body) as [t r]. cbn [fst snd] in *.
      rewrite started_app, Hbody. split.
      * apply (prefix_cons (nonce ev)). exact Hpre.
      * intros Hr. rewrite (Hall Hr). reflexivity.
    + rewrite Hbody. split; [|discriminate].
      exists (map nonce (yielded rest)). reflexivity.
Qed.

(** The log lines of the listener are not taken for processing. *)
Lemma started_gen_listen_loop (self : BlockchainConnector)
    (polls : list poll) :
  forall n, started (gen_effects (fst (listen_loop self n polls))) = [].
Proof.
  assert (Hh : forall p e k,
             started (gen_effects (fst k)) = [] ->
             started (gen_effects (fst (poll_handler self p e k))) = []).
  { intros p e [items fin] Hk. unfold poll_handler.
    destruct (isinstance_Exception e); [|reflexivity].
    destruct (backoff_raises p); [reflexivity | exact Hk]. }
  induction polls as [|p rest IH]; intros n; [reflexivity|]. simpl.
  destruct (sleep_raises p) as [e|]; [apply Hh, IH|].
  destruct (PrimFloat.ltb threshold (random_random p)).
  - destruct (_generate_mock_event self (n + 1) (draws p)) as [ev|e];
      [|apply Hh, IH].
    specialize (IH (n + 1)).
    destruct (listen_loop self (n + 1) rest) as [items fin]. exact IH.
  - specialize (IH n).
    destruct (listen_loop self n rest) as [items fin]. exact IH.
Qed.

Lemma started_listener_task (self : listener) (chain : Z)
    (polls : list poll) (env : DepositEvent -> world)
    (connector : BlockchainConnector) :
  connectors self !! chain = Some connector ->
  started (effects (_listener_task self chain polls env)) `prefix_of`
    map nonce (yielded (fst (listen_for_deposits connector polls))).
Proof.
  intros Hc. unfold _listener_task. rewrite Hc.
  pose proof (started_gen_listen_loop connector polls 0) as Hquiet.
  unfold listen_for_deposits.
  destruct (listen_loop connector 0 polls) as [items fin].
  cbn [fst] in *.
  set (its := GEffect (Log INFO (MsgListening (chain_id connector))) :: items).
  destruct (started_async_for
              (fun event => process_event (env event) event) its
              (fun ev => started_process_event (env ev) ev) Hquiet)
    as [Hpre _].
  unfold bind, effects in *.
  destruct (async_for its _) as [t [[]|e]]; cbn [fst] in *;
    [|exact Hpre].
  destruct fin; unfold_m; rewrite app_nil_r; exact Hpre.
Qed.
End Lane.

Lemma yielded_app (l1 l2 : list gen_item) :
  yielded (l1 ++ l2) = yielded l1 ++ yielded l2.
Proof.
  induction l1 as [|[x|ev] l1 IH]; simpl; rewrite ?IH; reflexivity.
Qed.

Lemma gen_effects_app (l1 l2 : list gen_item) :
  gen_effects (l1 ++ l2) = gen_effects l1 ++ gen_effects l2.
Proof.
  induction l1 as [|[x|ev] l1 IH]; simpl; rewrite ?IH; reflexivity.
Qed.

(** The trace of the loop is made of the whole contributions of the items
    it has handled, one after the other; it has handled them all when it
    returns. *)
Lemma async_for_trace (body : DepositEvent -> M unit)
    (items : list gen_item) :
  exists handled pending : list gen_item,
    items = handled ++ pending /\
    effects (async_for items body) = flat_map (item_effects body) handled /\
    (outcome (async_for items body) = Ok tt -> pending = []).
Proof.
  induction items as [|[x|ev] rest (handled & pending & Hsplit & Heff & Hok)].
  - exists [], []. repeat split.
  - exists (GEffect x :: handled), pending.
    cbn [async_for]. unfold bind, emit, effects, outcome in *.
    destruct (async_for rest body) as [t r]. cbn [fst snd app] in *.
    split; [rewrite Hsplit; reflexivity|].
    split; [cbn [flat_map item_effects app]; rewrite Heff; reflexivity|].
    exact Hok.
  - cbn [async_for]. unfold bind, effects, outcome in *.
    destruct (body ev) as [t1 [[]|e]] eqn:Hbody.
    + exists (GYield ev :: handled), pending.
      destruct (async_for rest body) as [t r]. cbn [fst snd] in *.
      split; [rewrite Hsplit; reflexivity|].
      split; [|exact Hok].
      cbn [flat_map item_effects]. unfold effects. rewrite Hbody, Heff.
      reflexivity.
    + exists [GYield ev], rest. cbn [fst snd].
      split; [reflexivity|]. split; [|discriminate].
      cbn [flat_map item_effects]. unfold effects. rewrite Hbody.
      rewrite app_nil_r. reflexivity.
Qed.

Section LaneTrace.
Context {W : Web3Lib}.

(** The events taken up while the items are handled are the events
    yielded among them, in order. *)
Lemma started_flat_map_items (env : DepositEvent -> world)
    (handled : list gen_item) :
  started (gen_effects handled) = [] ->
  started (flat_map (item_effects
                       (fun event => process_event (env event) event))
             handled)
  = map nonce (yielded handled).
Proof.
  induction handled as [|[x|ev] handled IH]; intros Hquiet.
  - reflexivity.
  - cbn [gen_effects] in Hquiet. rewrite started_cons in Hquiet.
    apply app_eq_nil in Hquiet. destruct Hquiet as [Hx Hrest].
    cbn [flat_map item_effects yielded app].
    rewrite started_cons, Hx. apply IH. exact Hrest.
  - cbn [gen_effects] in Hquiet.
    cbn [flat_map item_effects yielded map].
    rewrite started_app, started_process_event, (IH Hquiet). reflexivity.
Qed.
End LaneTrace.

(** C3. The task of a chain handles what its listener hands over, item by
    item: its trace is the whole trace of [process_event] for the first
    event yielded, then the whole trace for the next one, and so on, with
    the log lines of the listener in between. So each event is processed
    from its first step to its last before the next one is taken up, and
    the events so processed carry strictly increasing nonces. An event
    reaches the task only from [listen_for_deposits], which yields in
    nonce order: none arrives out of that order. *)
Theorem lane_processes_start_to_finish_in_nonce_order
    (W : Web3Lib) (self : listener) (chain : Z) (polls : list poll)
    (env : DepositEvent -> world) (connector : BlockchainConnector) :
  connectors self !! chain = Some connector ->
  exists handled pending : list gen_item,
    fst (listen_for_deposits connector polls) = handled ++ pending /\
    effects (_listener_task self chain polls env) =
      flat_map (item_effects (fun event => process_event (env event) event))
        handled /\
    (outcome (_listener_task self chain polls env) = Ok tt ->
     pending = []) /\
    started (effects (_listener_task self chain polls env)) =
      map nonce (yielded handled) /\
    StronglySorted Z.lt (map nonce (yielded handled)).
Proof.
  intros Hc.
  pose proof (started_gen_listen_loop connector polls 0) as Hquiet.
  pose proof (listen_loop_nonces connector polls 0) as [_ Hsorted].
  unfold _listener_task. rewrite Hc.
  unfold listen_for_deposits in *.
  destruct (listen_loop connector 0 polls) as [items fin]. cbn [fst] in *.
  set (its := GEffect (Log INFO (MsgListening (chain_id connector))) :: items).
  assert (Hquiet' : started (gen_effects its) = []) by exact Hquiet.
  assert (Hsorted' : StronglySorted Z.lt (map nonce (yielded its)))
    by exact Hsorted.
  destruct (async_for_trace (fun event => process_event (env event) event) its)
    as (handled & pending & Hsplit & Heff & Hok).
  exists handled, pending.
  assert (Hq : started (gen_effects handled) = []).
  { rewrite Hsplit, gen_effects_app, started_app in Hquiet'.
    apply app_eq_nil in Hquiet'. apply Hquiet'. }
  assert (Hs : StronglySorted Z.lt (map nonce (yielded handled))).
  { eapply StronglySorted_prefix; [|exact Hsorted'].
    rewrite Hsplit, yielded_app, map_app.
    exists (map nonce (yielded pending)). reflexivity. }
  assert (Htask :
            effects (async_for its
                       (fun event => process_event (env event) event);;
                     match fin with
                     | Suspended => ret tt
                     | Died e => raise e
                     end)
            = effects (async_for its
                         (fun event => process_event (env event) event))
            /\ (outcome (async_for its
                           (fun event => process_event (env event) event);;
                         match fin with
                         | Suspended => ret tt
                         | Died e => raise e
                         end) = Ok tt ->
                outcome (async_for its
                           (fun event => process_event (env event) event))
                = Ok tt)).
  { unfold bind, effects, outcome.
    destruct (async_for its _) as [t [[]|e]]; cbn [fst snd].
    - destruct fin; unfold ret, raise; cbn [fst snd];
        rewrite app_nil_r; auto.
    - split; [reflexivity | discriminate]. }
  destruct Htask as [Heq Hout].
  split; [exact Hsplit|].
  split; [rewrite Heq; exact Heff|].
  split; [intros H; apply Hok, Hout, H|].
  split; [|exact Hs].
  rewrite Heq, Heff. apply started_flat_map_items. exact Hq.
Qed.

(** On chain 1, over a poll that finds an event, one that finds nothing and
    one that finds an event: both events are processed, the first to its
    end before the second, with nonces 1 and 2. *)
Lemma lane_processes_start_to_finish_in_nonce_order_witness :
  let polls := [poll_hit; poll_miss; poll_hit] in
  let env := fun _ : DepositEvent => all_well in
  connectors listener_serving !! 1 = Some connector1 /\
  started (effects (@_listener_task Web3_sim listener_serving 1 polls env))
    = [1; 2] /\
  exists handled pending : list gen_item,
    fst (@listen_for_deposits Web3_sim connector1 polls) = handled ++ pending /\
    effects (@_listener_task Web3_sim listener_serving 1 polls env) =
      flat_map (item_effects
                  (fun event => @process_event Web3_sim (env event) event))
        handled /\
    (outcome (@_listener_task Web3_sim listener_serving 1 polls env) = Ok tt ->
     pending = []) /\
    started (effects (@_listener_task Web3_sim listener_serving 1 polls env)) =
      map nonce (yielded handled) /\
    StronglySorted Z.lt (map nonce (yielded handled)).
Proof.
  split; [reflexivity|].
  split; [vm_compute; reflexivity|].
  apply (lane_processes_start_to_finish_in_nonce_order Web3_sim
           listener_serving 1 [poll_hit; poll_miss; poll_hit]
           (fun _ => all_well) connector1).
  reflexivity.
Defined.

(** ** Connector set-up *)





(** ** Failures of the report *)

(** What the report absorbs: a missing session, any status code, and an
    exception of class [aiohttp.ClientError]. *)
Lemma report_absorbs_client_errors (s : session_state) (ev : DepositEvent)
    (v : pynum) (y : post_outcome) :
  session_available s = false
  \/ (exists code, y = PostStatus code)
  \/ (exists e, y = PostRaises e /\ isinstance_ClientError e = true) ->
  outcome (_report_to_monitoring_service s ev v y) = Ok tt.
Proof.
  unfold _report_to_monitoring_service.
  intros [Hs | Hy].
  { rewrite Hs. reflexivity. }
  destruct s; try reflexivity. simpl.
  destruct Hy as [(code & ->) | (e & -> & He)].
  - unfold_m. destruct (code =? 200); reflexivity.
  - destruct e; try discriminate. reflexivity.
Qed.

(** Any other exception leaves the report as it came. *)
Lemma report_lets_other_exceptions_through (ev : DepositEvent) (v : pynum)
    (e : exn) :
  isinstance_ClientError e = false ->
  outcome (_report_to_monitoring_service SessionOpen ev v (PostRaises e))
  = Raise e.
Proof. destruct e; try discriminate; reflexivity. Qed.

(** C2 does not hold of the code. When the report request times out,
    [session.post] raises [asyncio.TimeoutError], which is not an
    [aiohttp.ClientError]: the report raises it, [process_event] raises it,
    the task of the chain ends on it with its second event never taken up,
    and [run], after shutting down, raises it to its caller. The same
    exception from the price request is absorbed by [_get_token_price]. *)
Theorem report_timeout_ends_the_run :
  (forall (ev : DepositEvent) (v : pynum),
      outcome (_report_to_monitoring_service SessionOpen ev v
                 (PostRaises TimeoutError)) = Raise TimeoutError) /\
  outcome (_get_token_price SessionOpen (GetRaises TimeoutError)) = Ok None /\
  @_is_valid_event Web3_sim (deposit 1 137 1) = true /\
  outcome (@process_event Web3_sim report_times_out (deposit 1 137 1))
    = Raise TimeoutError /\
  map nonce
    (yielded
       (fst (@listen_for_deposits Web3_sim
               {| chain_id := 1;
                  rpc_url := "https://mainnet.infura.io/v3/YOUR_INFURA_KEY";
                  contract_address := "0xSourceBridgeContractAddress..." |}
               [poll_hit; poll_hit]))) = [1; 2] /\
  outcome (@_listener_task Web3_sim listener_serving 1 [poll_hit; poll_hit]
             (fun _ => report_times_out)) = Raise TimeoutError /\
  started (effects (@_listener_task Web3_sim listener_serving 1
                      [poll_hit; poll_hit] (fun _ => report_times_out)))
    = [1] /\
  outcome (run (listener_init [1; 137]) [TimeoutError]) = Raise TimeoutError.
Proof.
  split.
  - intros ev v. reflexivity.
  - vm_compute. repeat split.
Qed.

(** ** Mock events *)

Lemma hex_alphabet_is_hex (c : ascii) :
  In c hex_alphabet -> is_hex_digit c = true.
Proof.
  unfold hex_alphabet. simpl.
  intros H.
  repeat (destruct H as [<- | H]; [reflexivity|]).
  contradiction.
Qed.

(** The stand-in meets the two facts about the library that the next
    section assumes. *)
Lemma Web3_sim_checksum_defined (cs : list ascii) :
  hex40 cs ->
  exists r, @to_checksum_address Web3_sim
              (String.append "0x" (string_of_list_ascii cs)) = Ok r.
Proof.
  intros [Hlen Hall].
  exists (String.append "0x" (string_of_list_ascii cs)).
  cbn [to_checksum_address Web3_sim].
  assert (H : is_hex_address (String.append "0x" (string_of_list_ascii cs))
              = true).
  { change (String.append "0x" (string_of_list_ascii cs))
      with (String "0" (String "x" (string_of_list_ascii cs))).
    unfold is_hex_address.
    rewrite list_ascii_of_string_of_list_ascii, Hlen.
    change (40 =? 40)%nat with true. cbn [andb].
    apply forallb_forall. intros c Hc. apply hex_alphabet_is_hex.
    rewrite Forall_forall in Hall. apply Hall.
    apply list_elem_of_In. exact Hc. }
  rewrite H. reflexivity.
Qed.

Lemma Web3_sim_checksum_is_address (s r : string) :
  @to_checksum_address Web3_sim s = Ok r -> @is_address Web3_sim r = true.
Proof.
  cbn [to_checksum_address is_address Web3_sim].
  destruct (is_hex_address s) eqn:Hs; [|discriminate].
  intros H. assert (s = r) as <- by congruence. exact Hs.
Qed.

Lemma poll_hit_draws_wf : draws_wf (draws poll_hit).
Proof.
  assert (Hhex : forall c, In c hex_alphabet -> hex40 (digits40 c)).
  { intros c Hc. split; [reflexivity|].
    apply Forall_forall. intros x Hx. apply list_elem_of_In in Hx.
    apply repeat_spec in Hx. subst x. exact Hc. }
  repeat split; try (apply Hhex; simpl; tauto); simpl; lia.
Qed.

Section MockEvents.
Context {W : Web3Lib}.

(** The library computes the checksum form of any [0x] address of forty
    hexadecimal digits. *)
Hypothesis checksum_defined :
  forall cs : list ascii,
    hex40 cs ->
    exists r, to_checksum_address
                (String.append "0x" (string_of_list_ascii cs)) = Ok r.

(** The library accepts as an address what it returns as a checksum
    address. *)
Hypothesis checksum_is_address :
  forall s r : string, to_checksum_address s = Ok r -> is_address r = true.

Lemma _generate_mock_event_valid (self : BlockchainConnector) (n : Z)
    (d : mock_draws) :
  draws_wf d ->
  exists ev : DepositEvent,
    _generate_mock_event self n d = Ok ev /\
    0 < amount ev /\
    is_address (depositor ev) = true /\
    is_address (recipient ev) = true /\
    source_chain_id ev <> destination_chain_id ev /\
    _is_valid_event ev = true.
Proof.
  intros (_ & Hdep & Hrcp & Hamount).
  unfold _generate_mock_event.
  destruct (checksum_defined _ Hdep) as [dep Hd].
  destruct (checksum_defined _ Hrcp) as [rcp Hr].
  rewrite Hd, Hr. eexists. split; [reflexivity|].
  apply checksum_is_address in Hd, Hr.
  cbn [amount depositor recipient source_chain_id destination_chain_id].
  assert (Hpos : 0 < amount_rand d * 10 ^ 6).
  { change (10 ^ 6) with 1000000. lia. }
  repeat split; try assumption.
  - destruct (Z.eqb_spec (chain_id self) 1) as [-> | Hne];
      [discriminate | exact Hne].
  - rewrite _is_valid_event_spec.
    cbn [amount depositor recipient]. rewrite Hd, Hr.
    apply Z.ltb_lt in Hpos. rewrite Hpos. reflexivity.
Qed.

Lemma listen_loop_valid (self : BlockchainConnector) (polls : list poll) :
  Forall (fun p => draws_wf (draws p)) polls ->
  forall n : Z,
    Forall (fun ev => _is_valid_event ev = true)
      (yielded (fst (listen_loop self n polls))).
Proof.
  induction 1 as [|p rest Hp Hrest IH]; intros n; simpl.
  - constructor.
  - destruct (sleep_raises p) as [e|].
    { destruct (yielded_poll_handler self p e (listen_loop self n rest))
        as [-> | ->]; [apply IH | constructor]. }
    destruct (PrimFloat.ltb threshold (random_random p)).
    + destruct (_generate_mock_event_valid self (n + 1) (draws p) Hp)
        as (ev & Hg & _ & _ & _ & _ & Hvalid).
      rewrite Hg. specialize (IH (n + 1)).
      destruct (listen_loop self (n + 1) rest) as [items fin].
      simpl in *. constructor; assumption.
    + specialize (IH n).
      destruct (listen_loop self n rest) as [items fin]. exact IH.
Qed.

(** C10. With draws that [random] can produce, [_generate_mock_event]
    returns an event whose amount is positive, whose depositor and
    recipient are addresses for [is_address], and whose source and
    destination chains differ; the event passes [_is_valid_event], and so
    does every event that [listen_for_deposits] yields. *)
Theorem mock_events_pass_validation (self : BlockchainConnector) (n : Z)
    (d : mock_draws) (polls : list poll) :
  draws_wf d ->
  Forall (fun p => draws_wf (draws p)) polls ->
  (exists ev : DepositEvent,
      _generate_mock_event self n d = Ok ev /\
      0 < amount ev /\
      is_address (depositor ev) = true /\
      is_address (recipient ev) = true /\
      source_chain_id ev <> destination_chain_id ev /\
      _is_valid_event ev = true) /\
  Forall (fun ev => _is_valid_event ev = true)
    (yielded (fst (listen_for_deposits self polls))).
Proof.
  intros Hd Hpolls. split.
  - apply _generate_mock_event_valid. exact Hd.
  - rewrite yielded_listen_for_deposits.
    apply listen_loop_valid. exact Hpolls.
Qed.
End MockEvents.

Lemma mock_events_pass_validation_witness :
  let self := {| chain_id := 1;
                 rpc_url := "https://mainnet.infura.io/v3/YOUR_INFURA_KEY";
                 contract_address := "0xSourceBridgeContractAddress..." |} in
  draws_wf (draws poll_hit) /\
  (exists ev : DepositEvent,
      @_generate_mock_event Web3_sim self 1 (draws poll_hit) = Ok ev /\
      0 < amount ev /\
      @is_address Web3_sim (depositor ev) = true /\
      @is_address Web3_sim (recipient ev) = true /\
      source_chain_id ev <> destination_chain_id ev /\
      @_is_valid_event Web3_sim ev = true) /\
  Forall (fun ev => @_is_valid_event Web3_sim ev = true)
    (yielded (fst (@listen_for_deposits Web3_sim self [poll_hit; poll_hit]))).
Proof.
  split.
  - exact poll_hit_draws_wf.
  - apply (@mock_events_pass_validation Web3_sim
             Web3_sim_checksum_defined Web3_sim_checksum_is_address).
    + exact poll_hit_draws_wf.
    + constructor; [exact poll_hit_draws_wf|].
      constructor; [exact poll_hit_draws_wf|].
      constructor.
Defined.

(** * Further properties of the module *)

(** ** The price fetch and the report, case by case *)

Lemma fetch_outcome (s : session_state) (x : get_outcome) :
  outcome (_get_token_price s x) =
  if negb (session_available s) then Ok None
  else match x with
       | GetRaises e => if isinstance_Exception e then Ok None else Raise e
       | GetJson None => Ok None
       | GetJson (Some price) =>
           if py_bool price then
             match py_float price with
             | Ok f => Ok (Some f)
             | Raise e => if isinstance_Exception e then Ok None else Raise e
             end
           else Ok None
       end.
Proof.
  unfold _get_token_price.
  destruct s; simpl; try reflexivity.
  destruct x as [e|[[b [f|e]]|]]; try destruct b; try destruct e;
    reflexivity.
Qed.

Lemma report_outcome (s : session_state) (ev : DepositEvent) (v : pynum)
    (y : post_outcome) :
  outcome (_report_to_monitoring_service s ev v y) =
  if negb (session_available s) then Ok tt
  else match y with
       | PostRaises e => if isinstance_ClientError e then Ok tt else Raise e
       | PostStatus _ => Ok tt
       end.
Proof.
  unfold _report_to_monitoring_service.
  destruct s; simpl; try reflexivity.
  destruct y as [e|code]; [destruct e; reflexivity|].
  unfold_m. destruct (code =? 200); reflexivity.
Qed.

(** X1. [_get_token_price] raises [e] exactly when the session is open,
    [e] is not of class [Exception], and [e] comes from the request or
    from [float(price)] on a true price: every [Exception] is absorbed. *)
Theorem _get_token_price_raises_iff (s : session_state) (x : get_outcome)
    (e : exn) :
  outcome (_get_token_price s x) = Raise e <->
  session_available s = true /\
  isinstance_Exception e = false /\
  (x = GetRaises e
   \/ exists price, x = GetJson (Some price) /\ py_bool price = true
                    /\ py_float price = Raise e).
Proof.
  rewrite fetch_outcome.
  destruct (session_available s); simpl.
  2: { split; [discriminate | intros [H _]; discriminate]. }
  destruct x as [e'|[price|]].
  - destruct (isinstance_Exception e') eqn:He'; split.
    + discriminate.
    + intros (_ & He & [H | (p & H & _)]); [|discriminate].
      injection H as ->. congruence.
    + intros H. injection H as ->. auto.
    + intros (_ & _ & [H | (p & H & _)]); [congruence | discriminate].
  - destruct (py_bool price) eqn:Hb.
    + destruct (py_float price) as [f|e'] eqn:Hf.
      * split; [discriminate|].
        intros (_ & _ & [H | (p & H & _ & Hp)]); [discriminate|].
        injection H as <-. congruence.
      * destruct (isinstance_Exception e') eqn:He'; split.
        -- discriminate.
        -- intros (_ & He & [H | (p & H & _ & Hp)]); [discriminate|].
           injection H as <-. congruence.
        -- intros H. injection H as ->.
           split; [reflexivity|]. split; [exact He'|]. right. eauto.
        -- intros (_ & He & [H | (p & H & _ & Hp)]); [discriminate|].
           injection H as <-. congruence.
    + split; [discriminate|].
      intros (_ & _ & [H | (p & H & Hp & _)]); [discriminate|].
      injection H as <-. congruence.
  - split; [discriminate|].
    intros (_ & _ & [H | (p & H & _)]); discriminate.
Qed.

(** X2. [_get_token_price] returns the price [f] exactly when the session
    is open and the response carries a price field that is true and that
    [float] reads as [f]; a false field (the number zero, null, an empty
    string) never gives a price. *)
Theorem _get_token_price_returns_price_iff (s : session_state)
    (x : get_outcome) (f : float) :
  outcome (_get_token_price s x) = Ok (Some f) <->
  session_available s = true /\
  exists price, x = GetJson (Some price) /\ py_bool price = true
                /\ py_float price = Ok f.
Proof.
  rewrite fetch_outcome.
  destruct (session_available s); simpl.
  2: { split; [discriminate | intros [H _]; discriminate]. }
  destruct x as [e'|[price|]].
  - split; [destruct (isinstance_Exception e'); discriminate|].
    intros (_ & p & H & _). discriminate.
  - destruct (py_bool price) eqn:Hb.
    + destruct (py_float price) as [f'|e'] eqn:Hf.
      * split.
        -- intros H. assert (f' = f) as -> by congruence. eauto.
        -- intros (_ & p & H & _ & Hp). injection H as <-. congruence.
      * split; [destruct (isinstance_Exception e'); discriminate|].
        intros (_ & p & H & _ & Hp). injection H as <-. congruence.
    + split; [discriminate|].
      intros (_ & p & H & Hp & _). injection H as <-. congruence.
  - split; [discriminate|]. intros (_ & p & H & _). discriminate.
Qed.


(** ** One event, from the first log line to the last *)





Lemma int_truediv_raises (a b : Z) (e : exn) :
  int_truediv a b = Raise e -> e = OverflowError.
Proof.
  unfold int_truediv.
  destruct (is_infinity _); [congruence | discriminate].
Qed.

Lemma enrich_outcome (ev : DepositEvent) (tp : option float) :
  outcome (enrich ev tp) =
  match tp with
  | Some p =>
      if float_truthy p then
        match int_truediv (amount ev) (10 ^ 6) with
        | Ok q => Ok (Some (PrimFloat.mul q p))
        | Raise e => Raise e
        end
      else Ok None
  | None => Ok None
  end.
Proof.
  unfold enrich.
  destruct tp as [p|]; [|reflexivity].
  destruct (float_truthy p); [|reflexivity].
  destruct (int_truediv (amount ev) (10 ^ 6)); reflexivity.
Qed.

Lemma fetch_raise_inv (s : session_state) (x : get_outcome) (e : exn) :
  outcome (_get_token_price s x) = Raise e -> isinstance_Exception e = false.
Proof.
  rewrite fetch_outcome.
  destruct (session_available s); simpl; [|discriminate].
  destruct x as [e'|[price|]]; [| |discriminate].
  - destruct (isinstance_Exception e') eqn:He'; [discriminate|].
    intros H. congruence.
  - destruct (py_bool price); [|discriminate].
    destruct (py_float price) as [f|e']; [discriminate|].
    destruct (isinstance_Exception e') eqn:He'; [discriminate|].
    intros H. congruence.
Qed.

Lemma report_raise_inv (s : session_state) (ev : DepositEvent) (v : pynum)
    (y : post_outcome) (e : exn) :
  outcome (_report_to_monitoring_service s ev v y) = Raise e ->
  isinstance_ClientError e = false /\ session_available s = true
  /\ y = PostRaises e.
Proof.
  rewrite report_outcome.
  destruct (session_available s); simpl; [|discriminate].
  destruct y as [e'|code]; [|discriminate].
  destruct (isinstance_ClientError e') eqn:He'; [discriminate|].
  intros H. assert (e' = e) as -> by congruence. auto.
Qed.

Section WholeEvent.
Context {W : Web3Lib}.

(** The whole trace of [process_event] on an event that passes
    validation, piece by piece. *)
Lemma process_event_effects (w : world) (ev : DepositEvent) :
  _is_valid_event ev = true ->
  process_event w ev =
  let first := Log INFO (MsgProcessing (nonce ev) (source_chain_id ev)
                           (destination_chain_id ev)) in
  let F := _get_token_price (session_at_fetch w) (price_exchange w) in
  match outcome F with
  | Raise e => (first :: effects F, Raise e)
  | Ok tp =>
      let E := enrich ev tp in
      match outcome E with
      | Raise e => (first :: effects F ++ effects E, Raise e)
      | Ok v =>
          let R := _report_to_monitoring_service (session_at_report w) ev
                     (reported_value v) (report_exchange w) in
          (first :: effects F ++ effects E
             ++ Call (RequestSignatures ev)
             :: Log INFO (MsgRequestingSignatures (message_hash ev))
             :: Call (ReportToMonitoring ev (reported_value v))
             :: effects R
             ++ match outcome R with
                | Ok _ => [Log INFO (MsgProcessed (nonce ev))]
                | Raise _ => []
                end,
           outcome R)
      end
  end.
Proof.
  intros Hvalid. unfold process_event. rewrite Hvalid. simpl negb.
  unfold bind, log, emit, effects, outcome, _request_validator_signatures.
  cbv beta iota zeta.
  destruct (_get_token_price (session_at_fetch w) (price_exchange w))
    as [t1 [tp|e]]; cbn [fst snd app]; [|reflexivity].
  destruct (enrich ev tp) as [t2 [v|e]]; cbn [fst snd app]; [|reflexivity].
  destruct (_report_to_monitoring_service (session_at_report w) ev
              (reported_value v) (report_exchange w)) as [t3 [[]|e]];
    cbn [fst snd app]; rewrite ?app_nil_r; reflexivity.
Qed.
End WholeEvent.

(** X4. For an event whose integers can all be formatted (each prints in
    at most 4300 digits, so that no f-string raises [ValueError]), the only
    exceptions that leave [process_event] are: one outside [Exception]
    that the price fetch lets through, [OverflowError] from
    [amount / 10**6] when a price came, and one that is not an
    [aiohttp.ClientError] raised by the report request. Such an event never
    raises when validation rejects it. *)
Theorem process_event_raises_only (W : Web3Lib) (w : world)
    (ev : DepositEvent) :
  event_prints ev ->
  outcome (process_event w ev) = Ok tt \/
  exists e : exn,
    outcome (process_event w ev) = Raise e /\
    _is_valid_event ev = true /\
    ((isinstance_Exception e = false /\
      outcome (_get_token_price (session_at_fetch w) (price_exchange w))
        = Raise e)
     \/ (e = OverflowError /\
         exists p : float,
           outcome (_get_token_price (session_at_fetch w) (price_exchange w))
             = Ok (Some p) /\
           float_truthy p = true /\
           int_truediv (amount ev) (10 ^ 6) = Raise OverflowError)
     \/ (isinstance_ClientError e = false /\
         session_available (session_at_report w) = true /\
         report_exchange w = PostRaises e)).
Proof.
  intros _.
  destruct (_is_valid_event ev) eqn:Hvalid.
  2: { left. rewrite (process_event_invalid w ev Hvalid). reflexivity. }
  rewrite (process_event_effects w ev Hvalid). cbv zeta.
  destruct (outcome (_get_token_price _ _)) as [tp|e] eqn:Hf.
  - rewrite enrich_outcome.
    destruct tp as [p|].
    + destruct (float_truthy p) eqn:Hp.
      * destruct (int_truediv (amount ev) (10 ^ 6)) as [q|e] eqn:Hq.
        -- cbn [outcome snd].
           destruct (outcome (_report_to_monitoring_service _ _ _ _))
             as [[]|e] eqn:Hr; [left; reflexivity|].
           right. exists e. apply report_raise_inv in Hr.
           intuition.
        -- right. exists e. pose proof (int_truediv_raises _ _ _ Hq) as ->.
           split; [reflexivity|]. split; [reflexivity|].
           right. left. split; [reflexivity|]. exists p. auto.
      * cbn [outcome snd].
        destruct (outcome (_report_to_monitoring_service _ _ _ _))
          as [[]|e] eqn:Hr; [left; reflexivity|].
        right. exists e. apply report_raise_inv in Hr. intuition.
    + cbn [outcome snd].
      destruct (outcome (_report_to_monitoring_service _ _ _ _))
        as [[]|e] eqn:Hr; [left; reflexivity|].
      right. exists e. apply report_raise_inv in Hr. intuition.
  - right. exists e. split; [reflexivity|]. split; [reflexivity|].
    left. split; [|reflexivity].
    apply fetch_raise_inv in Hf. exact Hf.
Qed.

(** At the sample deposit, when the report request times out: the
    timeout leaves [process_event], as an exception that is not an
    [aiohttp.ClientError] raised by the report request. *)
Lemma process_event_raises_only_witness :
  let ev := deposit 1 137 1 in
  let w := report_times_out in
  event_prints ev /\
  outcome (@process_event Web3_sim w ev) = Raise TimeoutError /\
  (outcome (@process_event Web3_sim w ev) = Ok tt \/
   exists e : exn,
     outcome (@process_event Web3_sim w ev) = Raise e /\
     @_is_valid_event Web3_sim ev = true /\
     ((isinstance_Exception e = false /\
       outcome (_get_token_price (session_at_fetch w) (price_exchange w))
         = Raise e)
      \/ (e = OverflowError /\
          exists p : float,
            outcome (_get_token_price (session_at_fetch w) (price_exchange w))
              = Ok (Some p) /\
            float_truthy p = true /\
            int_truediv (amount ev) (10 ^ 6) = Raise OverflowError)
      \/ (isinstance_ClientError e = false /\
          session_available (session_at_report w) = true /\
          report_exchange w = PostRaises e))).
Proof.
  split; [exact event_prints_deposit|].
  split; [vm_compute; reflexivity|].
  apply (process_event_raises_only Web3_sim report_times_out
           (deposit 1 137 1)).
  exact event_prints_deposit.
Defined.



(** X6. In one [process_event] the signature request and the report are
    each called at most once, for the event given, and the report only
    after the request: the calls made are the first ones of the request
    followed by the report. Nothing is called for an event that fails
    validation, and an event that passes it and whose processing returns
    has had both. *)
Theorem process_event_call_order (W : Web3Lib) (w : world)
    (ev : DepositEvent) :
  (exists v : pynum,
     calls (effects (process_event w ev)) `prefix_of`
       [RequestSignatures ev; ReportToMonitoring ev v]) /\
  (_is_valid_event ev = false -> calls (effects (process_event w ev)) = []) /\
  (_is_valid_event ev = true ->
   outcome (process_event w ev) = Ok tt ->
   exists v : pynum,
     calls (effects (process_event w ev)) =
       [RequestSignatures ev; ReportToMonitoring ev v]).
Proof.
  destruct (_is_valid_event ev) eqn:Hvalid.
  - destruct (process_event_valid w ev Hvalid) as [_ H].
    destruct (outcome (_get_token_price _ _)) as [tp|e].
    + destruct (outcome (enrich ev tp)) as [v|e].
      * destruct H as (Hc & _ & _).
        split; [eexists; rewrite Hc; reflexivity|].
        split; [discriminate | eauto].
      * destruct H as (Hc & _ & Ho).
        split; [exists (PyInt (-1)); rewrite Hc; apply prefix_nil|].
        split; [discriminate|].
        intros _ Hok. congruence.
    + destruct H as (Hc & _ & Ho).
      split; [exists (PyInt (-1)); rewrite Hc; apply prefix_nil|].
      split; [discriminate|].
      intros _ Hok. congruence.
  - rewrite (process_event_invalid w ev Hvalid).
    split; [exists (PyInt (-1)); apply prefix_nil|].
    split; [reflexivity | discriminate].
Qed.


(** ** Session and shutdown *)

(** X8. [shutdown] never raises and leaves the listener stopped; a
    listener that was running has no open session afterwards, and the
    session is closed at most once. A second [shutdown] does nothing at
    all: it logs nothing and changes nothing. *)
Theorem shutdown_idempotent (self : listener) :
  exists (t : trace) (self' : listener),
    shutdown self = (t, Ok self') /\
    _is_running self' = false /\
    (_is_running self = true -> session_available (session self') = false) /\
    (session_closings t <= 1)%nat /\
    connectors self' = connectors self /\
    shutdown self' = ([], Ok self').
Proof.
  destruct self as [chains conns s running].
  destruct running, s; eexists; eexists;
    (split; [reflexivity|]); cbn; repeat split; try lia; discriminate.
Qed.

(** X9. [start_session] opens a session unless one is open, and
    [close_session] closes the open one. Starting twice opens once;
    closing twice closes once; a session that was closed is opened again
    by the next start. Neither raises. *)
Theorem session_start_close (self : listener) :
  exists (t1 t2 t3 : trace) (s1 s2 s3 : listener),
    start_session self = (t1, Ok s1) /\
    session s1 = SessionOpen /\
    (session_openings t1 =
     if session_available (session self) then 0 else 1)%nat /\
    start_session s1 = ([], Ok s1) /\
    close_session s1 = (t2, Ok s2) /\
    session s2 = SessionClosed /\
    session_closings t2 = 1%nat /\
    close_session s2 = ([], Ok s2) /\
    start_session s2 = (t3, Ok s3) /\
    session s3 = SessionOpen /\
    session_openings t3 = 1%nat /\
    connectors s3 = connectors self /\
    _is_running s3 = _is_running self.
Proof.
  destruct self as [chains conns s running].
  destruct s; do 6 eexists;
    (split; [reflexivity|]); cbn; repeat split.
Qed.

(** ** Start-up and the end of [run] *)








(** ** What the listener yields, and how it ends *)

Section ListenerEvents.
Context {W : Web3Lib}.

Lemma _generate_mock_event_fields (self : BlockchainConnector) (n : Z)
    (d : mock_draws) (ev : DepositEvent) :
  _generate_mock_event self n d = Ok ev ->
  source_chain_id ev = chain_id self /\
  destination_chain_id ev = (if chain_id self =? 1 then 137 else 1) /\
  token_address ev = "0xA0b86991c6218b36c1d19D4a2e9Eb0cE3606eB48"%string /\
  amount ev = amount_rand d * 10 ^ 6 /\
  nonce ev = n.
Proof.
  unfold _generate_mock_event.
  destruct (to_checksum_address _); [|discriminate].
  destruct (to_checksum_address _); [|discriminate].
  intros H. assert (Hev : ev = _) by (symmetry; injection H as H; exact H).
  rewrite Hev. repeat split.
Qed.

(** What every event yielded by the loop started at counter [n] looks
    like, and how many there can be. *)
Lemma listen_loop_shape (self : BlockchainConnector) (polls : list poll) :
  forall n : Z,
    Forall (fun ev =>
              source_chain_id ev = chain_id self /\
              destination_chain_id ev
                = (if chain_id self =? 1 then 137 else 1) /\
              token_address ev
                = "0xA0b86991c6218b36c1d19D4a2e9Eb0cE3606eB48"%string /\
              n < nonce ev <= n + Z.of_nat (length polls))
      (yielded (fst (listen_loop self n polls)))
    /\ (length (yielded (fst (listen_loop self n polls)))
        <= length polls)%nat.
Proof.
  induction polls as [|p rest IH]; intros n.
  - split; [constructor | simpl; lia].
  - assert (Hweak : forall m,
               n <= m <= n + 1 ->
               Forall (fun ev =>
                         source_chain_id ev = chain_id self /\
                         destination_chain_id ev
                           = (if chain_id self =? 1 then 137 else 1) /\
                         token_address ev
                           = "0xA0b86991c6218b36c1d19D4a2e9Eb0cE3606eB48"%string /\
                         n < nonce ev <= n + Z.of_nat (length (p :: rest)))
                 (yielded (fst (listen_loop self m rest)))
               /\ (length (yielded (fst (listen_loop self m rest)))
                   <= length (p :: rest))%nat).
    { intros m Hm. destruct (IH m) as [Hall Hlen]. split.
      - eapply Forall_impl; [exact Hall|]. cbn beta.
        intros ev (H1 & H2 & H3 & H4).
        repeat split; try assumption; simpl length; lia.
      - simpl length. lia. }
    assert (Hhandler : forall e m,
               n <= m <= n + 1 ->
               Forall (fun ev =>
                         source_chain_id ev = chain_id self /\
                         destination_chain_id ev
                           = (if chain_id self =? 1 then 137 else 1) /\
                         token_address ev
                           = "0xA0b86991c6218b36c1d19D4a2e9Eb0cE3606eB48"%string /\
                         n < nonce ev <= n + Z.of_nat (length (p :: rest)))
                 (yielded (fst (poll_handler self p e
                                  (listen_loop self m rest))))
               /\ (length (yielded (fst (poll_handler self p e
                                           (listen_loop self m rest))))
                   <= length (p :: rest))%nat).
    { intros e m Hm.
      destruct (yielded_poll_handler self p e (listen_loop self m rest))
        as [-> | ->]; [apply Hweak; exact Hm|].
      split; [constructor | simpl; lia]. }
    cbn [listen_loop].
    destruct (sleep_raises p) as [e|]; [apply Hhandler; lia|].
    destruct (PrimFloat.ltb threshold (random_random p)).
    + destruct (_generate_mock_event self (n + 1) (draws p)) as [ev|e] eqn:Hg;
        [|apply Hhandler; lia].
      apply _generate_mock_event_fields in Hg.
      destruct Hg as (H1 & H2 & H3 & _ & H5).
      destruct (Hweak (n + 1)) as [Hall _]; [lia|].
      destruct (IH (n + 1)) as [_ Hlen].
      destruct (listen_loop self (n + 1) rest) as [items fin].
      cbn [fst yielded] in *. split.
      * constructor; [|exact Hall].
        repeat split; try assumption; simpl length; lia.
      * simpl length in *. lia.
    + destruct (Hweak n) as [Hall Hlen]; [lia|].
      destruct (listen_loop self n rest) as [items fin].
      cbn [fst yielded] in *. split; assumption.
Qed.
End ListenerEvents.

(** X13. Every event that [listen_for_deposits] yields comes from the
    chain of the connector and goes to the other chain of the pair (137
    from chain 1, chain 1 from any other), in USDC, with a nonce between 1
    and the number of polls made so far; the listener yields at most one
    event for each poll. *)
Theorem listener_events_shape (W : Web3Lib) (self : BlockchainConnector)
    (polls : list poll) :
  Forall (fun ev =>
            source_chain_id ev = chain_id self /\
            destination_chain_id ev
              = (if chain_id self =? 1 then 137 else 1) /\
            token_address ev
              = "0xA0b86991c6218b36c1d19D4a2e9Eb0cE3606eB48"%string /\
            1 <= nonce ev <= Z.of_nat (length polls))
    (yielded (fst (listen_for_deposits self polls)))
  /\ (length (yielded (fst (listen_for_deposits self polls)))
      <= length polls)%nat.
Proof.
  rewrite yielded_listen_for_deposits.
  destruct (listen_loop_shape self polls 0) as [Hall Hlen].
  split; [|exact Hlen].
  eapply Forall_impl; [exact Hall|]. cbn beta.
  intros ev (H1 & H2 & H3 & H4). repeat split; try assumption; lia.
Qed.

Section ListenerRuns.
Context {W : Web3Lib}.

(** With every generation succeeding, the loop started at counter [n]
    numbers its events [n + 1], [n + 2], and so on. *)
Lemma listen_loop_consecutive (self : BlockchainConnector)
    (polls : list poll) :
  Forall (fun p => forall n, exists ev,
                _generate_mock_event self n (draws p) = Ok ev) polls ->
  forall (n : Z) (i : nat) (ev : DepositEvent),
    yielded (fst (listen_loop self n polls)) !! i = Some ev ->
    nonce ev = n + Z.of_nat i + 1.
Proof.
  induction 1 as [|p rest Hp Hrest IH]; intros n i ev Hi.
  - discriminate.
  - cbn [listen_loop] in Hi.
    destruct (sleep_raises p) as [e|].
    { destruct (yielded_poll_handler self p e (listen_loop self n rest))
        as [Hy | Hy]; rewrite Hy in Hi; [apply IH; exact Hi | discriminate]. }
    destruct (PrimFloat.ltb threshold (random_random p)).
    + destruct (Hp (n + 1)) as [ev0 Hg]. rewrite Hg in Hi.
      apply _generate_mock_event_nonce in Hg.
      specialize (IH (n + 1)).
      destruct (listen_loop self (n + 1) rest) as [items fin].
      cbn [fst yielded] in *.
      destruct i as [|j].
      * simpl in Hi. assert (ev0 = ev) as <- by congruence. lia.
      * simpl in Hi. rewrite (IH j ev Hi). lia.
    + specialize (IH n).
      destruct (listen_loop self n rest) as [items fin].
      apply IH. exact Hi.
Qed.

(** Where the exception that ends the loop comes from. *)
Lemma listen_loop_died (self : BlockchainConnector) (polls : list poll)
    (e : exn) :
  forall n : Z,
    snd (listen_loop self n polls) = Died e ->
    Exists (fun p =>
              (sleep_raises p = Some e /\ isinstance_Exception e = false)
              \/ backoff_raises p = Some e
              \/ (isinstance_Exception e = false /\
                  exists m, _generate_mock_event self m (draws p) = Raise e))
      polls.
Proof.
  induction polls as [|p rest IH]; intros n Hd; [discriminate|].
  assert (Hh : forall e' m,
             snd (poll_handler self p e' (listen_loop self m rest)) = Died e ->
             (e' = e /\ isinstance_Exception e = false)
             \/ backoff_raises p = Some e
             \/ snd (listen_loop self m rest) = Died e).
  { intros e' m. unfold poll_handler.
    destruct (isinstance_Exception e') eqn:He'.
    - destruct (backoff_raises p) as [e''|].
      + simpl. intros H. right. left. congruence.
      + destruct (listen_loop self m rest) as [items fin]. simpl. auto.
    - simpl. intros H. left. split; congruence. }
  cbn [listen_loop] in Hd.
  destruct (sleep_raises p) as [e'|] eqn:Hs.
  { destruct (Hh _ _ Hd) as [[-> He] | [Hb | Hrest]].
    - apply Exists_cons_hd. auto.
    - apply Exists_cons_hd. auto.
    - apply Exists_cons_tl. apply (IH n Hrest). }
  destruct (PrimFloat.ltb threshold (random_random p)).
  - destruct (_generate_mock_event self (n + 1) (draws p)) as [ev|e'] eqn:Hg.
    + apply Exists_cons_tl. apply (IH (n + 1)).
      destruct (listen_loop self (n + 1) rest) as [items fin]. exact Hd.
    + destruct (Hh _ _ Hd) as [[-> He] | [Hb | Hrest]].
      * apply Exists_cons_hd. right. right. eauto.
      * apply Exists_cons_hd. auto.
      * apply Exists_cons_tl. apply (IH (n + 1) Hrest).
  - apply Exists_cons_tl. apply (IH n).
    destruct (listen_loop self n rest) as [items fin]. exact Hd.
Qed.
End ListenerRuns.

(** X14. As long as no generation of an event fails, the nonces that
    [listen_for_deposits] yields are 1, 2, 3, ... without a gap: the event
    yielded at position [i] (from 0) has nonce [i + 1], whatever polls
    found nothing or ended in an error in between. *)
Theorem listener_nonces_consecutive (W : Web3Lib)
    (self : BlockchainConnector) (polls : list poll) (i : nat)
    (ev : DepositEvent) :
  Forall (fun p => forall n, exists ev',
                _generate_mock_event self n (draws p) = Ok ev') polls ->
  yielded (fst (listen_for_deposits self polls)) !! i = Some ev ->
  nonce ev = Z.of_nat i + 1.
Proof.
  intros Hgen Hi. rewrite yielded_listen_for_deposits in Hi.
  rewrite (listen_loop_consecutive self polls Hgen 0 i ev Hi). lia.
Qed.

(** X15. [listen_for_deposits] ends only on an exception outside
    [Exception] raised by the sleep of a poll or by the generation of an
    event, or on an exception raised by the sleep of the error handler;
    an [Exception] during a poll is logged and the loop goes on. *)
Theorem listener_dies_only_on (W : Web3Lib) (self : BlockchainConnector)
    (polls : list poll) (e : exn) :
  snd (listen_for_deposits self polls) = Died e ->
  Exists (fun p =>
            (sleep_raises p = Some e /\ isinstance_Exception e = false)
            \/ backoff_raises p = Some e
            \/ (isinstance_Exception e = false /\
                exists m, _generate_mock_event self m (draws p) = Raise e))
    polls.
Proof.
  unfold listen_for_deposits. intros Hd.
  apply (listen_loop_died self polls e 0).
  destruct (listen_loop self 0 polls) as [items fin]. exact Hd.
Qed.

Lemma poll_hit_generates (self : BlockchainConnector) (n : Z) :
  exists ev, @_generate_mock_event Web3_sim self n (draws poll_hit) = Ok ev.
Proof. eexists. reflexivity. Qed.

Lemma listener_nonces_consecutive_witness :
  exists ev : DepositEvent,
    yielded (fst (@listen_for_deposits Web3_sim connector1
                    [poll_hit; poll_miss; poll_hit])) !! 1%nat = Some ev
    /\ nonce ev = Z.of_nat 1 + 1.
Proof.
  eexists. split.
  - reflexivity.
  - apply (listener_nonces_consecutive Web3_sim connector1
             [poll_hit; poll_miss; poll_hit] 1).
    + constructor; [intros n; apply poll_hit_generates|].
      constructor; [intros n; apply poll_hit_generates|].
      constructor; [intros n; apply poll_hit_generates|].
      constructor.
    + reflexivity.
Defined.

Lemma listener_dies_only_on_witness :
  snd (@listen_for_deposits Web3_sim connector1 [poll_hit; poll_cancelled])
    = Died CancelledError /\
  Exists (fun p =>
            (sleep_raises p = Some CancelledError
             /\ isinstance_Exception CancelledError = false)
            \/ backoff_raises p = Some CancelledError
            \/ (isinstance_Exception CancelledError = false /\
                exists m, @_generate_mock_event Web3_sim connector1 m (draws p)
                          = Raise CancelledError))
    [poll_hit; poll_cancelled].
Proof.
  split.
  - reflexivity.
  - apply (listener_dies_only_on Web3_sim connector1
             [poll_hit; poll_cancelled] CancelledError).
    reflexivity.
Defined.

(** ** The loop of a task and a failing event *)

Section LaneFailure.
Context {W : Web3Lib}.

(** The loop over a sequence of items that ends in a yield: it runs the
    items before, then the body on the event yielded. *)
Lemma async_for_snoc (body : DepositEvent -> M unit) (pre : list gen_item)
    (ev : DepositEvent) (post : list gen_item) :
  outcome (async_for pre body) = Ok tt ->
  async_for (pre ++ GYield ev :: post) body =
  bind (async_for pre body)
    (fun _ => bind (body ev) (fun _ => async_for post body)).
Proof.
  induction pre as [|[x|ev'] pre IH]; intros Hok.
  - simpl. unfold_m. destruct (body ev) as [t [[]|e]]; [|reflexivity].
    destruct (async_for post body). reflexivity.
  - cbn [app async_for] in *. unfold bind, emit, outcome in *.
    destruct (async_for pre body) as [t [[]|e]] eqn:Hpre; cbn [snd] in Hok;
      [|discriminate].
    rewrite (IH eq_refl). cbn [app].
    destruct (body ev) as [t1 [[]|e]]; [|reflexivity].
    destruct (async_for post body) as [t2 r2]. reflexivity.
  - cbn [app async_for] in *. unfold bind, outcome in *.
    destruct (body ev') as [t0 [[]|e]]; cbn [snd] in Hok; [|discriminate].
    destruct (async_for pre body) as [t [[]|e]] eqn:Hpre; cbn [snd] in Hok;
      [|discriminate].
    rewrite (IH eq_refl).
    destruct (body ev) as [t1 [[]|e]]; [|rewrite app_assoc; reflexivity].
    destruct (async_for post body) as [t2 r2].
    rewrite !app_assoc. reflexivity.
Qed.
End LaneFailure.

(** X16. The loop of a task stops at the first event whose processing
    raises: the task raises that exception, and what the generator would
    have done and yielded afterwards never happens; the effects are those
    of the items before and of the failing event, nothing more. *)
Theorem lane_stops_at_first_failure (W : Web3Lib)
    (env : DepositEvent -> world) (pre post : list gen_item)
    (ev : DepositEvent) (e : exn) :
  outcome (async_for pre (fun event => process_event (env event) event))
    = Ok tt ->
  outcome (process_event (env ev) ev) = Raise e ->
  outcome (async_for (pre ++ GYield ev :: post)
             (fun event => process_event (env event) event)) = Raise e /\
  effects (async_for (pre ++ GYield ev :: post)
             (fun event => process_event (env event) event)) =
    effects (async_for pre (fun event => process_event (env event) event))
      ++ effects (process_event (env ev) ev).
Proof.
  intros Hpre Hev.
  rewrite (async_for_snoc (fun event => process_event (env event) event)
             pre ev post Hpre).
  unfold bind, outcome, effects in *.
  destruct (async_for pre _) as [t [[]|e0]]; cbn [snd] in Hpre;
    [|discriminate].
  destruct (process_event (env ev) ev) as [t1 [[]|e1]]; cbn [snd] in Hev;
    [discriminate|].
  cbn [fst snd]. split; congruence.
Qed.

Lemma lane_stops_at_first_failure_witness :
  let body := fun event =>
                @process_event Web3_sim (second_report_times_out event) event in
  let pre := [GYield (deposit 1 137 1)] in
  let post := [GYield (deposit 1 137 3)] in
  outcome (body (deposit 1 137 2)) = Raise TimeoutError /\
  outcome (async_for (pre ++ GYield (deposit 1 137 2) :: post) body)
    = Raise TimeoutError /\
  effects (async_for (pre ++ GYield (deposit 1 137 2) :: post) body) =
    effects (async_for pre body) ++ effects (body (deposit 1 137 2)).
Proof.
  split.
  - reflexivity.
  - apply (lane_stops_at_first_failure Web3_sim second_report_times_out
             [GYield (deposit 1 137 1)] [GYield (deposit 1 137 3)]
             (deposit 1 137 2) TimeoutError); reflexivity.
Defined.

(** ** The message to sign tells events apart *)

Lemma all_digits_string_of_uint (d : Decimal.uint) :
  all_digits (NilEmpty.string_of_uint d) = true.
Proof. induction d; simpl; try assumption; reflexivity. Qed.

(** [str(n)] is a non-empty run of digits, with or without a minus sign
    before it. *)
Lemma str_of_int_shape (z : Z) :
  exists ds : string,
    ds <> EmptyString /\ all_digits ds = true /\
    (str_of_int z = ds \/ str_of_int z = String "-" ds).
Proof.
  assert (Hp : forall p,
             NilZero.string_of_uint (Pos.to_uint p) <> EmptyString
             /\ all_digits (NilZero.string_of_uint (Pos.to_uint p)) = true).
  { intros p. pose proof (Unsigned.to_uint_nonnil p) as Hn.
    destruct (Pos.to_uint p) eqn:Hd; try contradiction;
      (split; [discriminate|]); unfold NilZero.string_of_uint;
      apply all_digits_string_of_uint. }
  unfold str_of_int. destruct z as [|p|p]; simpl.
  - exists "0"%string. repeat split; [discriminate | left; reflexivity].
  - exists (NilZero.string_of_uint (Pos.to_uint p)).
    destruct (Hp p). auto.
  - exists (NilZero.string_of_uint (Pos.to_uint p)).
    destruct (Hp p). auto.
Qed.

Lemma str_of_int_inj (a b : Z) : str_of_int a = str_of_int b -> a = b.
Proof.
  unfold str_of_int. intros H.
  assert (Hn : forall z, Z.to_int z <> Decimal.Pos Decimal.Nil
                         /\ Z.to_int z <> Decimal.Neg Decimal.Nil).
  { intros [|p|p]; simpl; split; try discriminate;
      intros Hc; injection Hc as Hc;
      exact (Unsigned.to_uint_nonnil p Hc). }
  assert (Hi : Some (Z.to_int a) = Some (Z.to_int b)).
  { rewrite <- (NilZero.isi (Z.to_int a)) by apply Hn.
    rewrite <- (NilZero.isi (Z.to_int b)) by apply Hn.
    rewrite H. reflexivity. }
  rewrite <- (DecimalZ.of_to a), <- (DecimalZ.of_to b). congruence.
Qed.

Lemma append_inv_head (a x y : string) :
  String.append a x = String.append a y -> x = y.
Proof.
  induction a as [|c a IH]; simpl; [auto|].
  intros H. injection H as H. auto.
Qed.

(** Two runs of digits, each followed by a dash: the runs are equal as
    soon as the whole texts are. *)
Lemma digits_dash_split (d1 : string) :
  forall d2 r1 r2 : string,
    all_digits d1 = true -> all_digits d2 = true ->
    String.append d1 (String "-" r1) = String.append d2 (String "-" r2) ->
    d1 = d2 /\ r1 = r2.
Proof.
  induction d1 as [|c d1 IH]; intros [|c' d2] r1 r2 H1 H2 H; simpl in *.
  - injection H as H. auto.
  - injection H as Hc H. subst c'. discriminate.
  - injection H as Hc H. subst c. discriminate.
  - injection H as Hc H. subst c'.
    apply andb_true_iff in H1, H2.
    destruct (IH d2 r1 r2) as [-> ->]; tauto.
Qed.

Lemma int_dash_split (a b : Z) (r1 r2 : string) :
  String.append (str_of_int a) (String "-" r1)
  = String.append (str_of_int b) (String "-" r2) ->
  a = b /\ r1 = r2.
Proof.
  destruct (str_of_int_shape a) as (da & Hna & Hda & Ha).
  destruct (str_of_int_shape b) as (db & Hnb & Hdb & Hb).
  intros H.
  assert (Hs : str_of_int a = str_of_int b /\ r1 = r2).
  { destruct Ha as [Ha|Ha], Hb as [Hb|Hb]; rewrite Ha, Hb in *.
    - destruct (digits_dash_split da db r1 r2 Hda Hdb H) as [-> ->]. auto.
    - destruct da as [|c da]; [contradiction|]. simpl in H, Hda.
      injection H as Hc H. subst c. discriminate.
    - destruct db as [|c db]; [contradiction|]. simpl in H, Hdb.
      injection H as Hc H. subst c. discriminate.
    - simpl in H. injection H as H.
      destruct (digits_dash_split da db r1 r2 Hda Hdb H) as [-> ->]. auto. }
  destruct Hs as [Hs ->].
  split; [apply str_of_int_inj; exact Hs | reflexivity].
Qed.

(** X17. Two events with the same recipient and the same token address
    that get the same message to sign have the same amount, the same
    nonce and the same destination chain: for one recipient and token the
    message tells every transfer from every other. *)
Theorem message_to_sign_injective (e1 e2 : DepositEvent) :
  recipient e1 = recipient e2 ->
  token_address e1 = token_address e2 ->
  message_to_sign e1 = message_to_sign e2 ->
  amount e1 = amount e2 /\ nonce e1 = nonce e2
  /\ destination_chain_id e1 = destination_chain_id e2.
Proof.
  unfold message_to_sign. intros Hr Ht H.
  rewrite Hr, Ht in H.
  apply (append_inv_head (recipient e2)) in H.
  simpl in H. injection H as H.
  apply (append_inv_head (token_address e2)) in H.
  simpl in H. injection H as H.
  apply int_dash_split in H. destruct H as [Ha H].
  apply int_dash_split in H. destruct H as [Hn H].
  apply str_of_int_inj in H. auto.
Qed.

Lemma message_to_sign_injective_witness :
  message_to_sign (deposit 1 137 4) = message_to_sign (deposit_elsewhere 4) /\
  amount (deposit 1 137 4) = amount (deposit_elsewhere 4) /\
  nonce (deposit 1 137 4) = nonce (deposit_elsewhere 4) /\
  destination_chain_id (deposit 1 137 4)
    = destination_chain_id (deposit_elsewhere 4).
Proof.
  split.
  - reflexivity.
  - apply (message_to_sign_injective (deposit 1 137 4) (deposit_elsewhere 4));
      reflexivity.
Defined.

(** ** The configuration reader *)

(** A text has one piece more than it has separators. *)
Lemma length_split_on (sep : ascii) (s : string) :
  length (split_on sep s)
  = S (count_occ ascii_dec (list_ascii_of_string s) sep).
Proof.
  induction s as [|c s IH]; [reflexivity|]. simpl.
  destruct (Ascii.eqb_spec c sep) as [->|Hne].
  - destruct (ascii_dec sep sep); [|contradiction].
    simpl. rewrite IH. reflexivity.
  - destruct (ascii_dec c sep); [contradiction|].
    destruct (split_on sep s) as [|p ps]; simpl in *;
      [discriminate | exact IH].
Qed.

Lemma split_on_no_sep (sep : ascii) (s : string) :
  Forall (fun piece => ~ In sep (list_ascii_of_string piece))
    (split_on sep s).
Proof.
  induction s as [|c s IH]; simpl.
  - constructor; [simpl; tauto | constructor].
  - destruct (Ascii.eqb_spec c sep) as [->|Hne].
    + constructor; [simpl; tauto | exact IH].
    + destruct (split_on sep s) as [|p ps].
      * constructor; [|constructor]. simpl. intros [H|[]]. congruence.
      * inversion IH as [|? ? Hp Hps]; subst. constructor; [|exact Hps].
        simpl. intros [H|H]; [congruence | contradiction].
Qed.

Section Strip.
Variable isspace : ascii -> bool.

Lemma lstrip_chars_suffix (cs : list ascii) :
  exists pre, cs = pre ++ lstrip_chars isspace cs.
Proof.
  induction cs as [|c cs [pre IH]]; [exists []; reflexivity|]. simpl.
  destruct (isspace c); [|exists []; reflexivity].
  exists (c :: pre). simpl. f_equal. exact IH.
Qed.

Lemma lstrip_chars_head (cs : list ascii) :
  match lstrip_chars isspace cs with
  | c :: _ => isspace c = false
  | [] => True
  end.
Proof.
  induction cs as [|c cs IH]; [exact I|]. simpl.
  destruct (isspace c) eqn:Hc; [exact IH | exact Hc].
Qed.

Lemma lstrip_chars_In (cs : list ascii) (c : ascii) :
  In c (lstrip_chars isspace cs) -> In c cs.
Proof.
  destruct (lstrip_chars_suffix cs) as [pre H]. intros Hc.
  rewrite H. apply in_or_app. right. exact Hc.
Qed.

Lemma strip_chars (s : string) :
  list_ascii_of_string (strip isspace s) =
  rev (lstrip_chars isspace
         (rev (lstrip_chars isspace (list_ascii_of_string s)))).
Proof. unfold strip. apply list_ascii_of_string_of_list_ascii. Qed.

Lemma strip_In (s : string) (c : ascii) :
  In c (list_ascii_of_string (strip isspace s)) ->
  In c (list_ascii_of_string s).
Proof.
  rewrite strip_chars. intros H.
  apply in_rev in H. apply lstrip_chars_In in H.
  apply in_rev in H. apply lstrip_chars_In in H. exact H.
Qed.

Lemma strip_first (s : string) (c : ascii) (rest : list ascii) :
  list_ascii_of_string (strip isspace s) = c :: rest -> isspace c = false.
Proof.
  rewrite strip_chars.
  set (A := lstrip_chars isspace (list_ascii_of_string s)).
  destruct (lstrip_chars_suffix (rev A)) as [pre Hpre].
  intros H.
  assert (HA : A = (c :: rest) ++ rev pre).
  { rewrite <- H, <- rev_app_distr, <- Hpre, rev_involutive. reflexivity. }
  pose proof (lstrip_chars_head (list_ascii_of_string s)) as Hh.
  fold A in Hh. rewrite HA in Hh. exact Hh.
Qed.

Lemma strip_last (s : string) (l : list ascii) (c : ascii) :
  list_ascii_of_string (strip isspace s) = l ++ [c] -> isspace c = false.
Proof.
  rewrite strip_chars.
  set (B := lstrip_chars isspace
              (rev (lstrip_chars isspace (list_ascii_of_string s)))).
  intros H.
  assert (HB : B = c :: rev l).
  { rewrite <- (rev_involutive B), H, rev_app_distr. reflexivity. }
  pose proof (lstrip_chars_head
                (rev (lstrip_chars isspace (list_ascii_of_string s)))) as Hh.
  fold B in Hh. rewrite HB in Hh. exact Hh.
Qed.

Lemma scan_lines_first_match (key : string) (pre : list string)
    (line : string) (post : list string) :
  Forall (fun l => String.prefix key l = false) pre ->
  String.prefix key line = true ->
  scan_lines isspace key (pre ++ line :: post) =
  match split_on "=" line with
  | _ :: value :: _ => ConfigReturns (Some (strip isspace value))
  | _ => ConfigIndexError
  end.
Proof.
  intros Hpre Hline. induction Hpre as [|l pre Hl Hpre IH]; simpl.
  - rewrite Hline. reflexivity.
  - rewrite Hl. exact IH.
Qed.

Lemma scan_lines_value (key : string) (lines : list string) (v : string) :
  scan_lines isspace key lines = ConfigReturns (Some v) ->
  exists line piece : string,
    In line lines /\ String.prefix key line = true /\
    In piece (split_on "=" line) /\ v = strip isspace piece.
Proof.
  induction lines as [|line rest IH]; simpl; [discriminate|].
  destruct (String.prefix key line) eqn:Hp.
  - destruct (split_on "=" line) as [|p [|piece ps]] eqn:Hs;
      try discriminate.
    intros H. exists line, piece. rewrite Hs.
    split; [auto|]. split; [exact Hp|]. split; [simpl; auto | congruence].
  - intros H. destruct (IH H) as (l & p & Hin & Hrest).
    exists l, p. split; [auto | exact Hrest].
Qed.
End Strip.

(** X18. The first line that starts with the key decides alone: the
    lines before it and after it play no part, and the call raises
    [IndexError] exactly when that line has no [=] in it. A line decides
    as soon as it starts with the key, whatever follows the key on it. *)
Theorem config_first_match_decides (isspace : ascii -> bool) (key : string)
    (pre : list string) (line : string) (post : list string) :
  Forall (fun l => String.prefix key l = false) pre ->
  String.prefix key line = true ->
  get_config_value_5888 isspace (Some (pre ++ line :: post)) key =
    get_config_value_5888 isspace (Some [line]) key /\
  (get_config_value_5888 isspace (Some (pre ++ line :: post)) key
     = ConfigIndexError <->
   ~ In "="%char (list_ascii_of_string line)).
Proof.
  intros Hpre Hline. cbn [get_config_value_5888].
  rewrite (scan_lines_first_match isspace key pre line post Hpre Hline).
  split.
  - simpl. rewrite Hline. reflexivity.
  - pose proof (length_split_on "=" line) as Hlen.
    destruct (split_on "=" line) as [|p [|v ps]]; simpl in Hlen.
    + discriminate.
    + split; [|reflexivity]. intros _ Hin.
      apply (count_occ_In ascii_dec) in Hin. lia.
    + split; [discriminate|]. intros Hno. exfalso.
      apply (count_occ_not_In ascii_dec) in Hno. lia.
Qed.

Lemma config_first_match_decides_witness :
  Forall (fun l => String.prefix "port" l = false) [line_comment] /\
  String.prefix "port" line_portal = true /\
  get_config_value_5888 latin1_isspace
    (Some ([line_comment] ++ line_portal :: [line_port])) "port" =
    get_config_value_5888 latin1_isspace (Some [line_portal]) "port" /\
  (get_config_value_5888 latin1_isspace
     (Some ([line_comment] ++ line_portal :: [line_port])) "port"
     = ConfigIndexError <->
   ~ In "="%char (list_ascii_of_string line_portal)).
Proof.
  assert (H : Forall (fun l => String.prefix "port" l = false)
                [line_comment]).
  { constructor; [reflexivity | constructor]. }
  split; [exact H|]. split; [reflexivity|].
  apply (config_first_match_decides latin1_isspace "port"
           [line_comment] line_portal [line_port] H).
  reflexivity.
Defined.

(** X19. A value that [get_config_value_5888] returns contains no [=]
    and has no white space at either end. *)
Theorem config_value_shape (isspace : ascii -> bool) (key : string)
    (lines : list string) (v : string) :
  get_config_value_5888 isspace (Some lines) key = ConfigReturns (Some v) ->
  ~ In "="%char (list_ascii_of_string v) /\
  (forall c rest, list_ascii_of_string v = c :: rest -> isspace c = false) /\
  (forall l c, list_ascii_of_string v = l ++ [c] -> isspace c = false).
Proof.
  intros H. apply scan_lines_value in H.
  destruct H as (line & piece & _ & _ & Hpiece & ->).
  split; [|split].
  - intros Hin. apply strip_In in Hin.
    pose proof (split_on_no_sep "=" line) as Hall.
    rewrite Forall_forall in Hall.
    apply (Hall piece); [apply list_elem_of_In; exact Hpiece | exact Hin].
  - intros c rest. apply strip_first.
  - intros l c. apply strip_last.
Qed.

Lemma config_value_shape_witness :
  get_config_value_5888 latin1_isspace (Some config_lines) "name"
    = ConfigReturns (Some "bridge"%string) /\
  ~ In "="%char (list_ascii_of_string "bridge") /\
  (forall c rest,
      list_ascii_of_string "bridge" = c :: rest ->
      latin1_isspace c = false) /\
  (forall l c,
      list_ascii_of_string "bridge" = l ++ [c] ->
      latin1_isspace c = false).
Proof.
  split.
  - reflexivity.
  - apply (config_value_shape latin1_isspace "name" config_lines "bridge").
    reflexivity.
Defined.

(** X20. [get_config_value_5888] returns [None] exactly when no line of
    the file starts with the key. *)
Theorem config_missing_key (isspace : ascii -> bool) (key : string)
    (lines : list string) :
  get_config_value_5888 isspace (Some lines) key = ConfigReturns None <->
  Forall (fun l => String.prefix key l = false) lines.
Proof.
  cbn [get_config_value_5888].
  induction lines as [|line rest IH]; simpl.
  - split; [constructor | reflexivity].
  - destruct (String.prefix key line) eqn:Hp.
    + split.
      * destruct (split_on "=" line) as [|p [|v ps]]; discriminate.
      * intros H. inversion H; subst. congruence.
    + rewrite IH. split.
      * intros H. constructor; assumption.
      * intros H. inversion H; subst. assumption.
Qed.
